(** * The data model of [app/models.py], and what its declarations enforce

    [app/models.py] is declarative: four enumerations, five persistent
    SQLModel tables and a set of non-persistent request schemas.  The
    declarations are transcribed below as data ([FieldDecl], [Model],
    [RelationshipDecl]), field by field and keyword by keyword, and the
    meaning SQLModel, pydantic and SQLAlchemy give to the keywords (type
    coercion, [max_length], [min_length], [max_digits], [decimal_places],
    [default], [unique], [foreign_key], and what becomes of [regex]) is
    written once, generically, in [validate_value], [validate],
    [configure_mappers] and [init]. *)

From Stdlib Require Import ZArith List String Ascii Bool Lia QArith Qpower.
From Stdlib Require Import DecimalFacts DecimalPos DecimalN.
From stdpp Require Import gmap strings list fin_maps.

Local Open Scope Z_scope.

(** ** Python strings

    A Python [str] is a sequence of Unicode code points; [len] counts code
    points.  Field names and dictionary keys of payloads are identifiers
    and stay Rocq [string]s. *)

Definition str : Type := list N.

Definition py (s : string) : str :=
  List.map N_of_ascii (list_ascii_of_string s).

Definition code (c : string) : N :=
  match c with
  | String a _ => N_of_ascii a
  | EmptyString => 0%N
  end.

(** ** Regular expressions

    The fragment of Python's [re] syntax that the source uses: character
    sets with ranges, literal characters, concatenation and [+].  A pattern
    of the source is written between [^] and [$]; [Re.fullmatch] is the
    match of the whole string against the part between the anchors, [$]
    being the end of the string.  It says which strings the pattern the
    source declares describes; whether validation applies the pattern is
    a matter of [check_str]. *)

Module Re.

Inductive t : Type :=
| Void
| Eps
| Set_ (ranges : list (N * N))
| Cat (a b : t)
| Alt (a b : t)
| Star (a : t).

(** [a+] *)
Definition Plus (a : t) : t := Cat a (Star a).

(** [x-y] inside a set, and a single character of a set. *)
Definition range (lo hi : string) : N * N := (code lo, code hi).
Definition chr (c : string) : N * N := (code c, code c).
(** A literal character outside a set. *)
Definition Lit (c : string) : t := Set_ [chr c].

Definition in_ranges (c : N) (rs : list (N * N)) : bool :=
  existsb (fun r => (fst r <=? c)%N && (c <=? snd r)%N) rs.

Fixpoint nullable (r : t) : bool :=
  match r with
  | Void => false
  | Eps => true
  | Set_ _ => false
  | Cat a b => nullable a && nullable b
  | Alt a b => nullable a || nullable b
  | Star _ => true
  end.

(** Brzozowski derivative. *)
Fixpoint deriv (c : N) (r : t) : t :=
  match r with
  | Void => Void
  | Eps => Void
  | Set_ rs => if in_ranges c rs then Eps else Void
  | Cat a b =>
      if nullable a
      then Alt (Cat (deriv c a) b) (deriv c b)
      else Cat (deriv c a) b
  | Alt a b => Alt (deriv c a) (deriv c b)
  | Star a => Cat (deriv c a) (Star a)
  end.

Fixpoint derivs (s : str) (r : t) : t :=
  match s with
  | [] => r
  | c :: s' => derivs s' (deriv c r)
  end.

Definition fullmatch (r : t) (s : str) : bool := nullable (derivs s r).

(** The language of a pattern, as a relation: the reference the
    executable matcher is checked against. *)
Inductive Matches : t -> str -> Prop :=
| MEps : Matches Eps []
| MSet rs c : in_ranges c rs = true -> Matches (Set_ rs) [c]
| MCat a b s1 s2 : Matches a s1 -> Matches b s2 -> Matches (Cat a b) (s1 ++ s2)
| MAltL a b s : Matches a s -> Matches (Alt a b) s
| MAltR a b s : Matches b s -> Matches (Alt a b) s
| MStar0 a : Matches (Star a) []
| MStarS a s1 s2 : Matches a s1 -> Matches (Star a) s2 -> Matches (Star a) (s1 ++ s2).

End Re.

(** The pattern of [User.email], [UserCreate.email] and
    [ExpertCreate.email]:
    [^[a-zA-Z0-9_.+-]+@[a-zA-Z0-9-]+\.[a-zA-Z0-9-.]+$] *)
Definition EMAIL_REGEX : Re.t :=
  Re.Cat (Re.Plus (Re.Set_ [Re.range "a" "z"; Re.range "A" "Z"; Re.range "0" "9";
                            Re.chr "_"; Re.chr "."; Re.chr "+"; Re.chr "-"]))
 (Re.Cat (Re.Lit "@")
 (Re.Cat (Re.Plus (Re.Set_ [Re.range "a" "z"; Re.range "A" "Z"; Re.range "0" "9";
                            Re.chr "-"]))
 (Re.Cat (Re.Lit ".")
         (Re.Plus (Re.Set_ [Re.range "a" "z"; Re.range "A" "Z"; Re.range "0" "9";
                            Re.chr "-"; Re.chr "."]))))).

(** ** [decimal.Decimal]

    A finite [Decimal] is a signed coefficient and an exponent; its value
    is [coef * 10 ^ exp].  [Decimal("50.0")] is coefficient 500, exponent
    -1, and differs from [Decimal("50.00")] only in representation.
    Addition, subtraction, multiplication and comparison are exact here:
    the default context keeps 28 significant digits, far above the 15 the
    widest field of the model admits.  [normalize] is the one operation
    below that is given its rounding to the context precision, because
    validation applies it to whatever the caller sends.  Infinities, NaN,
    the negative zero and the bounds of the exponent are left out. *)

Record Decimal : Type := Dec { coef : Z; exp : Z }.

(** The rational number a [Decimal] denotes. *)
Definition Decimal_value (d : Decimal) : Q := (inject_Z (coef d) * inject_Z 10 ^ exp d)%Q.

(** The coefficient at a smaller (or equal) exponent [e]. *)
Definition rescale (d : Decimal) (e : Z) : Z := coef d * 10 ^ (exp d - e).

(** [a == b]: numeric equality. *)
Definition Decimal_eqb (a b : Decimal) : bool :=
  let m := Z.min (exp a) (exp b) in rescale a m =? rescale b m.

(** [a <= b]. *)
Definition Decimal_leb (a b : Decimal) : bool :=
  let m := Z.min (exp a) (exp b) in rescale a m <=? rescale b m.

Definition Decimal_add (a b : Decimal) : Decimal :=
  let m := Z.min (exp a) (exp b) in Dec (rescale a m + rescale b m) m.

Definition Decimal_sub (a b : Decimal) : Decimal :=
  let m := Z.min (exp a) (exp b) in Dec (rescale a m - rescale b m) m.

Definition Decimal_mul (a b : Decimal) : Decimal :=
  Dec (coef a * coef b) (exp a + exp b).

(** [num / den] rounded to the nearest integer, ties to even
    ([ROUND_HALF_EVEN], the rounding of the default context). *)
Definition div_half_even (num den : Z) : Z :=
  let q := num / den in
  let r := num mod den in
  match 2 * r ?= den with
  | Lt => q
  | Gt => q + 1
  | Eq => if Z.even q then q else q + 1
  end.

(** [d.quantize(Decimal(1).scaleb(e))]. *)
Definition quantize (d : Decimal) (e : Z) : Decimal :=
  if e <=? exp d then Dec (rescale d e) e
  else Dec (div_half_even (coef d) (10 ^ (e - exp d))) e.

(** [len(d.as_tuple().digits)]: the number of digits of the coefficient. *)
Definition ndigits (z : Z) : nat :=
  Corelib.Init.Decimal.nb_digits (N.to_uint (Z.abs_N z)).

(** [getcontext().prec]. *)
Definition prec : nat := 28.

(** The rounding of a result to the context precision: a coefficient of
    more than [prec] digits is cut to [prec] digits, half to even; a carry
    out of the leading digit gives one digit more, which is dropped. *)
Definition fix_ (d : Decimal) : Decimal :=
  let n := ndigits (coef d) in
  if (n <=? prec)%nat then d
  else
    let k := Z.of_nat (n - prec) in
    let m := div_half_even (Z.abs (coef d)) (10 ^ k) in
    if m =? 10 ^ Z.of_nat prec
    then Dec (Z.sgn (coef d) * (m / 10)) (exp d + k + 1)
    else Dec (Z.sgn (coef d) * m) (exp d + k).

(** The loop of [normalize]: while the last digit is 0, drop it and raise
    the exponent.  [fuel] bounds the number of digits dropped. *)
Fixpoint strip_zeros (fuel : nat) (c e : Z) : Z * Z :=
  match fuel with
  | O => (c, e)
  | S fuel' =>
      if c mod 10 =? 0 then strip_zeros fuel' (c / 10) (e + 1) else (c, e)
  end.

(** [d.normalize()]: the value rounded to the context precision, without
    trailing zeros; any zero becomes [Decimal("0")]. *)
Definition normalize (d : Decimal) : Decimal :=
  let d' := fix_ d in
  if coef d' =? 0 then Dec 0 0
  else
    let '(c, e) := strip_zeros (ndigits (coef d')) (coef d') (exp d') in
    Dec c e.

(** The digit counts pydantic checks [max_digits] and [decimal_places]
    against: [(decimals, digits)] from the digit tuple of the coefficient
    and the exponent, of the value as it is written or of the normalized
    value.  A positive exponent adds that many trailing zeros; a negative
    exponent larger than the number of digits stands for leading zeros
    after the point. *)
Definition extract_decimal_digits_info (d : Decimal) (normalized : bool)
    : nat * nat :=
  let t := if normalized then normalize d else d in
  let digits := ndigits (coef t) in
  if 0 <=? exp t then (0%nat, (digits + Z.to_nat (exp t))%nat)
  else
    let decimals := Z.to_nat (- exp t) in
    (decimals, Nat.max digits decimals).

(** ** Decimals as text

    [str(d)] and [Decimal(s)]: the text form in which a decimal crosses
    the boundary of the process (JSON has no decimals). *)

Fixpoint uint_codes (u : Corelib.Init.Decimal.uint) : str :=
  match u with
  | Corelib.Init.Decimal.Nil => []
  | Corelib.Init.Decimal.D0 u => 48%N :: uint_codes u
  | Corelib.Init.Decimal.D1 u => 49%N :: uint_codes u
  | Corelib.Init.Decimal.D2 u => 50%N :: uint_codes u
  | Corelib.Init.Decimal.D3 u => 51%N :: uint_codes u
  | Corelib.Init.Decimal.D4 u => 52%N :: uint_codes u
  | Corelib.Init.Decimal.D5 u => 53%N :: uint_codes u
  | Corelib.Init.Decimal.D6 u => 54%N :: uint_codes u
  | Corelib.Init.Decimal.D7 u => 55%N :: uint_codes u
  | Corelib.Init.Decimal.D8 u => 56%N :: uint_codes u
  | Corelib.Init.Decimal.D9 u => 57%N :: uint_codes u
  end.

Fixpoint codes_uint (s : str) : option Corelib.Init.Decimal.uint :=
  match s with
  | [] => Some Corelib.Init.Decimal.Nil
  | c :: s' =>
      match codes_uint s' with
      | None => None
      | Some u =>
          match c with
          | 48%N => Some (Corelib.Init.Decimal.D0 u)
          | 49%N => Some (Corelib.Init.Decimal.D1 u)
          | 50%N => Some (Corelib.Init.Decimal.D2 u)
          | 51%N => Some (Corelib.Init.Decimal.D3 u)
          | 52%N => Some (Corelib.Init.Decimal.D4 u)
          | 53%N => Some (Corelib.Init.Decimal.D5 u)
          | 54%N => Some (Corelib.Init.Decimal.D6 u)
          | 55%N => Some (Corelib.Init.Decimal.D7 u)
          | 56%N => Some (Corelib.Init.Decimal.D8 u)
          | 57%N => Some (Corelib.Init.Decimal.D9 u)
          | _ => None
          end
      end
  end.

(** An ASCII digit. *)
Definition is_digit (c : N) : Prop := (48 <= c <= 57)%N.

(** The digits of a natural number, most significant first; ["0"] for 0. *)
Definition digits (n : N) : str := uint_codes (N.to_uint n).

(** [int(s)] for a non-empty string of ASCII digits. *)
Definition parse_nat (s : str) : option N :=
  match s with
  | [] => None
  | _ => N.of_uint <$> codes_uint s
  end.

(** [s.partition(c)]: the text before the first [c], and the text after
    it when there is one. *)
Fixpoint partition (c : N) (s : str) : str * option str :=
  match s with
  | [] => ([], None)
  | x :: s' =>
      if (x =? c)%N then ([], Some s')
      else let '(a, b) := partition c s' in (x :: a, b)
  end.

Definition zeros (k : nat) : str := replicate k 48%N.

(** The exponent part of scientific notation: nothing for 0, else [E],
    a sign (always written) and the digits. *)
Definition exponent_str (e : Z) : str :=
  if e =? 0 then []
  else 69%N :: (if e <? 0 then 45%N else 43%N) :: digits (Z.abs_N e).

(** The text of a non-negative decimal of coefficient [n] and exponent
    [e]: plain notation while the exponent is at most 0 and the value is
    not too small, scientific notation otherwise. *)
Definition unsigned_str (n : N) (e : Z) : str :=
  let ds := digits n in
  let len := Z.of_nat (length ds) in
  let leftdigits := e + len in
  let dotplace := if (e <=? 0) && (-6 <? leftdigits) then leftdigits else 1 in
  let intpart :=
    if dotplace <=? 0 then [48%N]
    else if len <=? dotplace then ds ++ zeros (Z.to_nat (dotplace - len))
    else take (Z.to_nat dotplace) ds in
  let fracpart :=
    if dotplace <=? 0 then 46%N :: zeros (Z.to_nat (- dotplace)) ++ ds
    else if len <=? dotplace then []
    else 46%N :: drop (Z.to_nat dotplace) ds in
  intpart ++ fracpart ++ exponent_str (leftdigits - dotplace).

(** [Decimal.__str__]. *)
Definition Decimal_str (d : Decimal) : str :=
  (if coef d <? 0 then [45%N] else []) ++ unsigned_str (Z.abs_N (coef d)) (exp d).

(** An optionally signed integer, as after the [E] of a decimal. *)
Definition parse_int (s : str) : option Z :=
  match s with
  | 45%N :: r => (fun n => - Z.of_N n) <$> parse_nat r
  | 43%N :: r => Z.of_N <$> parse_nat r
  | _ => Z.of_N <$> parse_nat s
  end.

(** [digits [. digits] [E [sign] digits]]: coefficient and exponent. *)
Definition parse_unsigned (body : str) : option (N * Z) :=
  let '(mant, ex) := partition 69%N body in
  let '(ip, fp) := partition 46%N mant in
  let fp := default [] fp in
  match parse_nat (ip ++ fp), (match ex with None => Some 0 | Some x => parse_int x end) with
  | Some c, Some e => Some (c, e - Z.of_nat (length fp))
  | _, _ => None
  end.

(** [Decimal(s)] for the numeric strings
    [[sign] digits [. digits] [E [sign] digits]]. *)
Definition Decimal_of_str (s : str) : option Decimal :=
  match s with
  | 45%N :: r => (fun ce => Dec (- Z.of_N (fst ce)) (snd ce)) <$> parse_unsigned r
  | 43%N :: r => (fun ce => Dec (Z.of_N (fst ce)) (snd ce)) <$> parse_unsigned r
  | _ => (fun ce => Dec (Z.of_N (fst ce)) (snd ce)) <$> parse_unsigned s
  end.

(** ** [datetime.datetime]

    A naive [datetime] is its calendar fields. *)

Record datetime : Type := Datetime {
  year : Z; month : Z; day : Z; hour : Z; minute : Z; second : Z; microsecond : Z
}.

(** [k] digits of [n], zero-padded (["%0kd"]). *)
Fixpoint fixed_digits (k : nat) (n : N) : str :=
  match k with
  | O => []
  | S k' => fixed_digits k' (n / 10) ++ [(48 + n mod 10)%N]
  end.

Fixpoint parse_fixed_aux (s : str) (acc : N) : option N :=
  match s with
  | [] => Some acc
  | c :: s' =>
      if (48 <=? c)%N && (c <=? 57)%N then parse_fixed_aux s' (acc * 10 + (c - 48))%N
      else None
  end.

(** The first [k] characters of [s] read as a number, and the rest. *)
Definition parse_fixed (k : nat) (s : str) : option (N * str) :=
  if (length s <? k)%nat then None
  else (fun n => (n, drop k s)) <$> parse_fixed_aux (take k s) 0%N.

Definition expect (c : N) (s : str) : option str :=
  match s with
  | x :: s' => if (x =? c)%N then Some s' else None
  | [] => None
  end.

Definition is_leap (y : Z) : bool :=
  (y mod 4 =? 0) && (negb (y mod 100 =? 0) || (y mod 400 =? 0)).

Definition days_in_month (y m : Z) : Z :=
  if m =? 2 then (if is_leap y then 29 else 28)
  else if (m =? 4) || (m =? 6) || (m =? 9) || (m =? 11) then 30
  else 31.

(** The arguments [datetime(...)] accepts. *)
Definition datetime_valid (t : datetime) : bool :=
  (1 <=? year t) && (year t <=? 9999) &&
  (1 <=? month t) && (month t <=? 12) &&
  (1 <=? day t) && (day t <=? days_in_month (year t) (month t)) &&
  (0 <=? hour t) && (hour t <? 24) &&
  (0 <=? minute t) && (minute t <? 60) &&
  (0 <=? second t) && (second t <? 60) &&
  (0 <=? microsecond t) && (microsecond t <? 1000000).

(** [t.isoformat()]: [YYYY-MM-DDTHH:MM:SS], with [.ffffff] when the
    microsecond is not 0. *)
Definition isoformat (t : datetime) : str :=
  fixed_digits 4 (Z.to_N (year t)) ++ [45%N] ++
  fixed_digits 2 (Z.to_N (month t)) ++ [45%N] ++
  fixed_digits 2 (Z.to_N (day t)) ++ [84%N] ++
  fixed_digits 2 (Z.to_N (hour t)) ++ [58%N] ++
  fixed_digits 2 (Z.to_N (minute t)) ++ [58%N] ++
  fixed_digits 2 (Z.to_N (second t)) ++
  (if microsecond t =? 0 then [] else 46%N :: fixed_digits 6 (Z.to_N (microsecond t))).

(** [datetime.fromisoformat(s)] on the two shapes [isoformat] writes. *)
Definition fromisoformat (s : str) : option datetime :=
  '(y, s) ← parse_fixed 4 s; s ← expect 45%N s;
  '(mo, s) ← parse_fixed 2 s; s ← expect 45%N s;
  '(d, s) ← parse_fixed 2 s; s ← expect 84%N s;
  '(h, s) ← parse_fixed 2 s; s ← expect 58%N s;
  '(mi, s) ← parse_fixed 2 s; s ← expect 58%N s;
  '(se, s) ← parse_fixed 2 s;
  us ← match s with
       | [] => Some 0%N
       | _ => s ← expect 46%N s; '(us, s) ← parse_fixed 6 s;
              match s with [] => Some us | _ => None end
       end;
  let t := Datetime (Z.of_N y) (Z.of_N mo) (Z.of_N d) (Z.of_N h)
                    (Z.of_N mi) (Z.of_N se) (Z.of_N us) in
  if datetime_valid t then Some t else None.

(** ** Enumerations *)

Inductive UserRole : Type := ADMIN | MANAGER | EXPERT.
Inductive ExpertStatus : Type := ACTIVE | INACTIVE | PENDING | SUSPENDED.
Inductive CostCategory : Type := MARKETING | OPERATIONS | TECHNOLOGY | SUPPORT | OTHER.
Inductive TransactionType : Type := SALE | REFUND | ADJUSTMENT.

Definition UserRole_value (r : UserRole) : string :=
  match r with ADMIN => "admin" | MANAGER => "manager" | EXPERT => "expert" end.

Definition ExpertStatus_value (s : ExpertStatus) : string :=
  match s with
  | ACTIVE => "active" | INACTIVE => "inactive"
  | PENDING => "pending" | SUSPENDED => "suspended"
  end.

Definition CostCategory_value (c : CostCategory) : string :=
  match c with
  | MARKETING => "marketing" | OPERATIONS => "operations"
  | TECHNOLOGY => "technology" | SUPPORT => "support" | OTHER => "other"
  end.

Definition TransactionType_value (t : TransactionType) : string :=
  match t with SALE => "sale" | REFUND => "refund" | ADJUSTMENT => "adjustment" end.

Inductive enum_class : Type :=
  UserRole_ | ExpertStatus_ | CostCategory_ | TransactionType_.

Inductive enum_member : Type :=
| role (r : UserRole)
| status (s : ExpertStatus)
| category (c : CostCategory)
| transaction (t : TransactionType).

Definition members (k : enum_class) : list enum_member :=
  match k with
  | UserRole_ => [role ADMIN; role MANAGER; role EXPERT]
  | ExpertStatus_ => [status ACTIVE; status INACTIVE; status PENDING; status SUSPENDED]
  | CostCategory_ =>
      [category MARKETING; category OPERATIONS; category TECHNOLOGY;
       category SUPPORT; category OTHER]
  | TransactionType_ => [transaction SALE; transaction REFUND; transaction ADJUSTMENT]
  end.

Definition member_value (m : enum_member) : string :=
  match m with
  | role r => UserRole_value r
  | status s => ExpertStatus_value s
  | category c => CostCategory_value c
  | transaction t => TransactionType_value t
  end.

Definition class_of (m : enum_member) : enum_class :=
  match m with
  | role _ => UserRole_
  | status _ => ExpertStatus_
  | category _ => CostCategory_
  | transaction _ => TransactionType_
  end.

#[global] Instance str_eq_dec : EqDecision str := _.
#[global] Instance enum_class_eq_dec : EqDecision enum_class.
Proof. solve_decision. Defined.

(** [EnumClass(s)]: the member whose value is [s]. *)
Definition enum_of_value (k : enum_class) (s : str) : option enum_member :=
  List.find (fun m => bool_decide (py (member_value m) = s)) (members k).

(** ** Values

    What an attribute of a model instance, or an entry of a payload, can
    hold. *)

#[warnings="-register-all"]
Inductive value : Type :=
| VNone
| VStr (s : str)
| VInt (z : Z)
| VBool (b : bool)
| VDecimal (d : Decimal)
| VDatetime (t : datetime)
| VEnum (m : enum_member)
| VDict (items : list (str * value)).

(** ** Field declarations *)

Inductive Ty : Type :=
| TInt
| TStr
| TBool
| TDecimal
| TDatetime
| TEnum (k : enum_class)
| TAny
| TDict (t : Ty)        (* Dict[str, t] *)
| TOptional (t : Ty).

Module Kw.
(** The keyword arguments of [Field(...)] that occur in the source. *)
Inductive t : Type :=
| default (v : value)
| default_factory_utcnow
| primary_key
| unique
| foreign_key (target : string)
| max_length (n : nat)
| min_length (n : nat)
| regex (r : Re.t)
| max_digits (n : nat)
| decimal_places (n : nat)
| sa_column_JSON.
End Kw.

Record FieldDecl : Type := Field { fname : string; ftype : Ty; kwargs : list Kw.t }.

Record Model : Type := SQLModel {
  cls : string;
  table : bool;
  tablename : option string;
  fields : list FieldDecl
}.

(** ** The declarations of [app/models.py]

    [Relationship(...)] attributes are navigation properties, not columns:
    they take no part in validation, uniqueness or serialization.  They
    are transcribed after the models, with the mapper configuration that
    reads them. *)

Abbreviation None_ := (Kw.default VNone).
Abbreviation Optional := TOptional.

(** *** Persistent models (stored in database) *)

Definition User : Model :=
  SQLModel "User" true (Some "users") [
    Field "id" (Optional TInt) [None_; Kw.primary_key];
    Field "email" TStr [Kw.unique; Kw.max_length 255; Kw.regex EMAIL_REGEX];
    Field "password_hash" TStr [Kw.max_length 255];
    Field "name" TStr [Kw.max_length 100];
    Field "role" (TEnum UserRole_) [Kw.default (VEnum (role EXPERT))];
    Field "is_active" TBool [Kw.default (VBool true)];
    Field "permissions" (TDict TAny) [Kw.default (VDict []); Kw.sa_column_JSON];
    Field "created_at" TDatetime [Kw.default_factory_utcnow];
    Field "updated_at" TDatetime [Kw.default_factory_utcnow]
  ].

Definition Expert : Model :=
  SQLModel "Expert" true (Some "experts") [
    Field "id" (Optional TInt) [None_; Kw.primary_key];
    Field "business_name" TStr [Kw.max_length 200];
    Field "expert_name" TStr [Kw.max_length 100];
    Field "email" TStr [Kw.max_length 255];
    Field "phone" (Optional TStr) [None_; Kw.max_length 20];
    Field "status" (TEnum ExpertStatus_) [Kw.default (VEnum (status PENDING))];
    Field "partnership_start_date" TDatetime [Kw.default_factory_utcnow];
    Field "revenue_split_percentage" TDecimal
      [Kw.default (VDecimal (Dec 500 (-1))); Kw.max_digits 5; Kw.decimal_places 2];
    Field "business_description" (Optional TStr) [None_; Kw.max_length 1000];
    Field "website" (Optional TStr) [None_; Kw.max_length 255];
    Field "social_media" (TDict TStr) [Kw.default (VDict []); Kw.sa_column_JSON];
    Field "subdomain" (Optional TStr) [None_; Kw.max_length 50; Kw.unique];
    Field "branding_config" (TDict TAny) [Kw.default (VDict []); Kw.sa_column_JSON];
    Field "owner_id" (Optional TInt) [None_; Kw.foreign_key "users.id"];
    Field "created_by_id" TInt [Kw.foreign_key "users.id"];
    Field "created_at" TDatetime [Kw.default_factory_utcnow];
    Field "updated_at" TDatetime [Kw.default_factory_utcnow]
  ].

Definition Sale : Model :=
  SQLModel "Sale" true (Some "sales") [
    Field "id" (Optional TInt) [None_; Kw.primary_key];
    Field "expert_id" TInt [Kw.foreign_key "experts.id"];
    Field "transaction_type" (TEnum TransactionType_) [Kw.default (VEnum (transaction SALE))];
    Field "gross_amount" TDecimal [Kw.max_digits 12; Kw.decimal_places 2];
    Field "net_amount" TDecimal [Kw.max_digits 12; Kw.decimal_places 2];
    Field "product_name" (Optional TStr) [None_; Kw.max_length 200];
    Field "product_category" (Optional TStr) [None_; Kw.max_length 100];
    Field "quantity" TInt [Kw.default (VInt 1)];
    Field "customer_id" (Optional TStr) [None_; Kw.max_length 100];
    Field "customer_country" (Optional TStr) [None_; Kw.max_length 3];
    Field "sale_date" TDatetime [Kw.default_factory_utcnow];
    Field "created_at" TDatetime [Kw.default_factory_utcnow]
  ].

Definition OperationalCost : Model :=
  SQLModel "OperationalCost" true (Some "operational_costs") [
    Field "id" (Optional TInt) [None_; Kw.primary_key];
    Field "expert_id" TInt [Kw.foreign_key "experts.id"];
    Field "created_by_id" TInt [Kw.foreign_key "users.id"];
    Field "category" (TEnum CostCategory_) [];
    Field "description" TStr [Kw.max_length 500];
    Field "amount" TDecimal [Kw.max_digits 12; Kw.decimal_places 2];
    Field "cost_date" TDatetime [Kw.default_factory_utcnow];
    Field "is_recurring" TBool [Kw.default (VBool false)];
    Field "recurring_frequency" (Optional TStr) [None_; Kw.max_length 20];
    Field "external_reference" (Optional TStr) [None_; Kw.max_length 100];
    Field "notes" (Optional TStr) [None_; Kw.max_length 1000];
    Field "created_at" TDatetime [Kw.default_factory_utcnow];
    Field "updated_at" TDatetime [Kw.default_factory_utcnow]
  ].

Definition FinancialReport : Model :=
  SQLModel "FinancialReport" true (Some "financial_reports") [
    Field "id" (Optional TInt) [None_; Kw.primary_key];
    Field "expert_id" TInt [Kw.foreign_key "experts.id"];
    Field "period_start" TDatetime [];
    Field "period_end" TDatetime [];
    Field "report_type" TStr [Kw.max_length 50];
    Field "gross_revenue" TDecimal [Kw.max_digits 15; Kw.decimal_places 2];
    Field "total_costs" TDecimal [Kw.max_digits 15; Kw.decimal_places 2];
    Field "net_profit" TDecimal [Kw.max_digits 15; Kw.decimal_places 2];
    Field "og_share" TDecimal [Kw.max_digits 15; Kw.decimal_places 2];
    Field "expert_share" TDecimal [Kw.max_digits 15; Kw.decimal_places 2];
    Field "total_sales_count" TInt [Kw.default (VInt 0)];
    Field "average_sale_value" TDecimal
      [Kw.default (VDecimal (Dec 0 (-2))); Kw.max_digits 12; Kw.decimal_places 2];
    Field "cost_breakdown" (TDict TDecimal) [Kw.default (VDict []); Kw.sa_column_JSON];
    Field "generated_at" TDatetime [Kw.default_factory_utcnow];
    Field "is_finalized" TBool [Kw.default (VBool false)]
  ].

(** *** Non-persistent schemas (validation, forms, API requests/responses) *)

Definition UserCreate : Model :=
  SQLModel "UserCreate" false None [
    Field "email" TStr [Kw.max_length 255; Kw.regex EMAIL_REGEX];
    Field "password" TStr [Kw.min_length 8; Kw.max_length 100];
    Field "name" TStr [Kw.max_length 100];
    Field "role" (TEnum UserRole_) [Kw.default (VEnum (role EXPERT))];
    Field "permissions" (TDict TAny) [Kw.default (VDict [])]
  ].

Definition UserUpdate : Model :=
  SQLModel "UserUpdate" false None [
    Field "name" (Optional TStr) [None_; Kw.max_length 100];
    Field "role" (Optional (TEnum UserRole_)) [None_];
    Field "is_active" (Optional TBool) [None_];
    Field "permissions" (Optional (TDict TAny)) [None_]
  ].

Definition ExpertCreate : Model :=
  SQLModel "ExpertCreate" false None [
    Field "business_name" TStr [Kw.max_length 200];
    Field "expert_name" TStr [Kw.max_length 100];
    Field "email" TStr [Kw.max_length 255; Kw.regex EMAIL_REGEX];
    Field "phone" (Optional TStr) [None_; Kw.max_length 20];
    Field "business_description" (Optional TStr) [None_; Kw.max_length 1000];
    Field "website" (Optional TStr) [None_; Kw.max_length 255];
    Field "revenue_split_percentage" TDecimal
      [Kw.default (VDecimal (Dec 500 (-1))); Kw.max_digits 5; Kw.decimal_places 2];
    Field "subdomain" (Optional TStr) [None_; Kw.max_length 50]
  ].

Definition ExpertUpdate : Model :=
  SQLModel "ExpertUpdate" false None [
    Field "business_name" (Optional TStr) [None_; Kw.max_length 200];
    Field "expert_name" (Optional TStr) [None_; Kw.max_length 100];
    Field "email" (Optional TStr) [None_; Kw.max_length 255];
    Field "phone" (Optional TStr) [None_; Kw.max_length 20];
    Field "status" (Optional (TEnum ExpertStatus_)) [None_];
    Field "business_description" (Optional TStr) [None_; Kw.max_length 1000];
    Field "website" (Optional TStr) [None_; Kw.max_length 255];
    Field "revenue_split_percentage" (Optional TDecimal)
      [None_; Kw.max_digits 5; Kw.decimal_places 2];
    Field "branding_config" (Optional (TDict TAny)) [None_]
  ].

Definition SaleCreate : Model :=
  SQLModel "SaleCreate" false None [
    Field "expert_id" TInt [];
    Field "transaction_type" (TEnum TransactionType_) [Kw.default (VEnum (transaction SALE))];
    Field "gross_amount" TDecimal [Kw.max_digits 12; Kw.decimal_places 2];
    Field "net_amount" TDecimal [Kw.max_digits 12; Kw.decimal_places 2];
    Field "product_name" (Optional TStr) [None_; Kw.max_length 200];
    Field "product_category" (Optional TStr) [None_; Kw.max_length 100];
    Field "quantity" TInt [Kw.default (VInt 1)];
    Field "customer_id" (Optional TStr) [None_; Kw.max_length 100];
    Field "customer_country" (Optional TStr) [None_; Kw.max_length 3];
    Field "sale_date" (Optional TDatetime) [None_]
  ].

Definition OperationalCostCreate : Model :=
  SQLModel "OperationalCostCreate" false None [
    Field "expert_id" TInt [];
    Field "category" (TEnum CostCategory_) [];
    Field "description" TStr [Kw.max_length 500];
    Field "amount" TDecimal [Kw.max_digits 12; Kw.decimal_places 2];
    Field "cost_date" (Optional TDatetime) [None_];
    Field "is_recurring" TBool [Kw.default (VBool false)];
    Field "recurring_frequency" (Optional TStr) [None_; Kw.max_length 20];
    Field "external_reference" (Optional TStr) [None_; Kw.max_length 100];
    Field "notes" (Optional TStr) [None_; Kw.max_length 1000]
  ].

Definition OperationalCostUpdate : Model :=
  SQLModel "OperationalCostUpdate" false None [
    Field "category" (Optional (TEnum CostCategory_)) [None_];
    Field "description" (Optional TStr) [None_; Kw.max_length 500];
    Field "amount" (Optional TDecimal) [None_; Kw.max_digits 12; Kw.decimal_places 2];
    Field "cost_date" (Optional TDatetime) [None_];
    Field "is_recurring" (Optional TBool) [None_];
    Field "recurring_frequency" (Optional TStr) [None_; Kw.max_length 20];
    Field "external_reference" (Optional TStr) [None_; Kw.max_length 100];
    Field "notes" (Optional TStr) [None_; Kw.max_length 1000]
  ].

Definition FinancialSummary : Model :=
  SQLModel "FinancialSummary" false None [
    Field "total_experts" TInt [];
    Field "active_experts" TInt [];
    Field "total_gross_revenue" TDecimal [];
    Field "total_og_share" TDecimal [];
    Field "total_expert_share" TDecimal [];
    Field "period_start" TDatetime [];
    Field "period_end" TDatetime []
  ].

Definition ExpertFinancialSummary : Model :=
  SQLModel "ExpertFinancialSummary" false None [
    Field "expert_id" TInt [];
    Field "expert_name" TStr [];
    Field "business_name" TStr [];
    Field "gross_revenue" TDecimal [];
    Field "total_costs" TDecimal [];
    Field "net_profit" TDecimal [];
    Field "og_share" TDecimal [];
    Field "expert_share" TDecimal [];
    Field "sales_count" TInt [];
    Field "average_sale_value" TDecimal [];
    Field "period_start" TDatetime [];
    Field "period_end" TDatetime []
  ].

(** ** What the declarations mean

    Validation as pydantic runs it over the fields of a model: every
    declared field is looked up in the payload, coerced to its annotated
    type and checked against its constraints; a field that is absent
    takes its default, or is reported missing; keys of the payload that
    are not fields are ignored.  All failing fields are reported together.
    For a schema ([table=False]) this is the whole of [model_validate] and
    of the constructor.  A table model first configures the mappers of
    its tables; that step, and the calls as a whole, are [init] and
    [model_validate] below. *)

Inductive err_kind : Type :=
| missing
| type_error (expected : Ty)
| string_too_short (min_length : nat)
| string_too_long (max_length : nat)
| decimal_max_digits (max_digits : nat)
| decimal_max_places (decimal_places : nat)
| decimal_whole_digits (whole_digits : nat).

(** A [ValidationError]: the offending fields, each with the constraint
    it violates, in declaration order. *)
Definition ValidationError : Type := list (string * err_kind).

Fixpoint kw_find {A : Type} (sel : Kw.t -> option A) (l : list Kw.t) : option A :=
  match l with
  | [] => None
  | k :: l' => match sel k with Some a => Some a | None => kw_find sel l' end
  end.

Definition get_max_length (f : FieldDecl) : option nat :=
  kw_find (fun k => match k with Kw.max_length n => Some n | _ => None end) (kwargs f).
Definition get_min_length (f : FieldDecl) : option nat :=
  kw_find (fun k => match k with Kw.min_length n => Some n | _ => None end) (kwargs f).
Definition get_regex (f : FieldDecl) : option Re.t :=
  kw_find (fun k => match k with Kw.regex r => Some r | _ => None end) (kwargs f).
Definition get_max_digits (f : FieldDecl) : option nat :=
  kw_find (fun k => match k with Kw.max_digits n => Some n | _ => None end) (kwargs f).
Definition get_decimal_places (f : FieldDecl) : option nat :=
  kw_find (fun k => match k with Kw.decimal_places n => Some n | _ => None end) (kwargs f).
Definition is_unique (f : FieldDecl) : bool :=
  bool_decide (is_Some
    (kw_find (fun k => match k with Kw.unique => Some tt | _ => None end) (kwargs f))).

(** The default of a field, [now] being what [datetime.utcnow] returns. *)
Definition get_default (now : datetime) (f : FieldDecl) : option value :=
  kw_find (fun k => match k with
                    | Kw.default v => Some v
                    | Kw.default_factory_utcnow => Some (VDatetime now)
                    | _ => None
                    end) (kwargs f).

(** The entries of a mapping, each value coerced by [c]; [None] when one
    of them fails. *)
Fixpoint coerce_items (c : value -> option value) (items : list (str * value))
    : option (list (str * value)) :=
  match items with
  | [] => Some []
  | kv :: items' =>
      match c (snd kv), coerce_items c items' with
      | Some x, Some r => Some ((fst kv, x) :: r)
      | _, _ => None
      end
  end.

(** Coercion to the annotated type; [None] is a type error.  A value of
    the annotated type is kept; beyond that an [int] or a numeric string
    becomes a [Decimal], a string in the format of [isoformat] a
    [datetime], and the string value of a member the member.  The values
    of a mapping are coerced to its value type.  These are the conversions
    the properties below rely on.  Outside its strict mode pydantic
    converts more than is written here (a string of digits to an [int],
    the words for yes and no to a [bool], a [float] to a [Decimal], other
    spellings of a date): on such inputs [coerce] answers [None] where
    pydantic converts, so a type error of this model shows that an input
    is outside these conversions and is not by itself a rejection by
    pydantic. *)
Fixpoint coerce (t : Ty) (v : value) : option value :=
  match t with
  | TOptional t' => match v with VNone => Some VNone | _ => coerce t' v end
  | TInt => match v with VInt _ => Some v | _ => None end
  | TStr => match v with VStr _ => Some v | _ => None end
  | TBool => match v with VBool _ => Some v | _ => None end
  | TDecimal =>
      match v with
      | VDecimal _ => Some v
      | VInt z => Some (VDecimal (Dec z 0))
      | VStr s => VDecimal <$> Decimal_of_str s
      | _ => None
      end
  | TDatetime =>
      match v with
      | VDatetime _ => Some v
      | VStr s => VDatetime <$> fromisoformat s
      | _ => None
      end
  | TEnum k =>
      match v with
      | VEnum m => if decide (class_of m = k) then Some v else None
      | VStr s => VEnum <$> enum_of_value k s
      | _ => None
      end
  | TAny => Some v
  | TDict t' =>
      match v with
      | VDict items => VDict <$> coerce_items (coerce t') items
      | _ => None
      end
  end.

(** The first error of two checks run in this order. *)
Definition or_else (a b : option err_kind) : option err_kind :=
  match a with Some e => Some e | None => b end.

(** The constraints of a [str] field.  SQLModel's [Field] hands its
    keyword arguments on to pydantic's [FieldInfo], which builds the
    constraints of the field from the keywords it knows: [min_length],
    [max_length], [max_digits], [decimal_places] and [pattern] are among
    them, [regex] is not.  The source writes [regex=], never [pattern=]:
    the argument is accepted and constrains nothing, so no pattern is
    checked here. *)
Definition check_str (f : FieldDecl) (s : str) : option err_kind :=
  or_else
    match get_min_length f with
    | Some n => if (length s <? n)%nat then Some (string_too_short n) else None
    | None => None
    end
    match get_max_length f with
    | Some n => if (n <? length s)%nat then Some (string_too_long n) else None
    | None => None
    end.

(** The constraints of a [Decimal] field, as pydantic's decimal validator
    runs them: the digits are counted on the value as written and on the
    normalized value, and a count is over the limit when both are; the
    digits before the point are counted on the value as written. *)
Definition check_decimal (f : FieldDecl) (d : Decimal) : option err_kind :=
  let '(normalized_decimals, normalized_digits) := extract_decimal_digits_info d true in
  let '(decimals, digits) := extract_decimal_digits_info d false in
  or_else
    match get_max_digits f with
    | Some n =>
        if (n <? digits)%nat && (n <? normalized_digits)%nat
        then Some (decimal_max_digits n) else None
    | None => None
    end
    match get_decimal_places f with
    | Some p =>
        if (p <? decimals)%nat && (p <? normalized_decimals)%nat
        then Some (decimal_max_places p)
        else match get_max_digits f with
             | Some n =>
                 if (n - p <? digits - decimals)%nat
                 then Some (decimal_whole_digits (n - p)) else None
             | None => None
             end
    | None => None
    end.

(** The constraints of a field on a value of its type; [None] (Python's)
    is subject to none. *)
Definition check (f : FieldDecl) (v : value) : option err_kind :=
  match v with
  | VStr s => check_str f s
  | VDecimal d => check_decimal f d
  | _ => None
  end.

Definition validate_value (f : FieldDecl) (v : value) : err_kind + value :=
  match coerce (ftype f) v with
  | None => inl (type_error (ftype f))
  | Some v' => match check f v' with Some e => inl e | None => inr v' end
  end.

(** A model instance: its attributes, and which of them the caller
    supplied ([model_fields_set]). *)
Record obj : Type := Obj {
  attrs : gmap string value;
  fields_set : list string
}.

(** One field of a payload: the supplied value validated, or the
    default, or [missing]. *)
Definition validate_field (now : datetime) (f : FieldDecl)
    (data : gmap string value) : err_kind + value :=
  match data !! fname f with
  | Some v => validate_value f v
  | None =>
      match get_default now f with
      | Some d => inr d
      | None => inl missing
      end
  end.

Fixpoint validate_fields (now : datetime) (fs : list FieldDecl)
    (data : gmap string value) : ValidationError * gmap string value :=
  match fs with
  | [] => ([], ∅)
  | f :: fs' =>
      let '(errs, a) := validate_fields now fs' data in
      match validate_field now f data with
      | inl e => ((fname f, e) :: errs, a)
      | inr v => (errs, <[fname f := v]> a)
      end
  end.

Definition supplied (fs : list FieldDecl) (data : gmap string value) : list string :=
  List.filter (fun n => bool_decide (is_Some (data !! n))) (List.map fname fs).

(** The validation of [data] against the fields of [M]: for a schema,
    [M.model_validate(data)] and the constructor called with the entries
    of [data] as keyword arguments. *)
Definition validate (M : Model) (now : datetime) (data : gmap string value)
    : ValidationError + obj :=
  match validate_fields now (fields M) data with
  | ([], a) => inr (Obj a (supplied (fields M) data))
  | (errs, _) => inl errs
  end.

(** The attributes a table model is built with from the entries of
    [data]: SQLModel assigns them without validating; supplied values are
    stored as they are and the other fields take their defaults.  This is
    the assignment alone, the last step of the constructor of a table
    model; the constructor as a whole is [init]. *)
Fixpoint construct_fields (now : datetime) (fs : list FieldDecl)
    (data : gmap string value) : gmap string value :=
  match fs with
  | [] => ∅
  | f :: fs' =>
      let a := construct_fields now fs' data in
      match data !! fname f with
      | Some v => <[fname f := v]> a
      | None =>
          match get_default now f with
          | Some d => <[fname f := d]> a
          | None => a
          end
      end
  end.

Definition construct (M : Model) (now : datetime) (data : gmap string value) : obj :=
  Obj (construct_fields now (fields M) data) (supplied (fields M) data).

(** Whether every field of [M] passes on [data]. *)
Definition accepts (M : Model) (now : datetime) (data : gmap string value) : bool :=
  forallb (fun f => match validate_field now f data with
                    | inr _ => true
                    | inl _ => false
                    end) (fields M).

(** The schemas the request layer fills from caller input. *)
Definition transfer_schemas : list Model :=
  [UserCreate; UserUpdate; ExpertCreate; ExpertUpdate; SaleCreate;
   OperationalCostCreate; OperationalCostUpdate].

(** The fields the server manages: identifiers, timestamps, computed
    shares. *)
Definition server_managed : list string :=
  ["id"; "created_at"; "updated_at"; "og_share"; "expert_share"; "net_profit"].

Definition field_names (M : Model) : list string := List.map fname (fields M).

(** ** The collaborators of the schema layer

    The source declares shapes only.  The storage engine, the request
    layer that creates and patches rows and the report generator are
    named by the specification and written down here from its words, over
    the declarations above. *)

(** Modelled from the spec: the error kinds of its section 7. *)
Inductive error : Type :=
| ValidationError_ (errs : ValidationError)
| UniquenessConflict (column : string)
| ReferentialIntegrityError (column : string)
| NotFoundError.

Abbreviation row := (gmap string value).
Abbreviation Database := (gmap string (list (gmap string value))).

Definition table_name (M : Model) : string := default (cls M) (tablename M).

Definition rows (db : Database) (M : Model) : list row :=
  default [] (db !! table_name M).

(** Modelled from the spec: equality of two column values as the unique
    index of a storage engine sees it; [NULL] equals nothing, and JSON
    documents are not indexed. *)
Definition sql_eqb (a b : value) : bool :=
  match a, b with
  | VStr s, VStr s' => bool_decide (s = s')
  | VInt z, VInt z' => z =? z'
  | VBool x, VBool y => Bool.eqb x y
  | VDecimal d, VDecimal d' => Decimal_eqb d d'
  | VEnum m, VEnum m' => bool_decide (py (member_value m) = py (member_value m'))
  | _, _ => false
  end.

Definition unique_columns (M : Model) : list string :=
  List.map fname (List.filter is_unique (fields M)).

Definition taken (c : string) (v : value) (existing : list row) : bool :=
  existsb (fun r' => match r' !! c with Some v' => sql_eqb v v' | None => false end)
          existing.

(** Modelled from the spec: "enforcing uniqueness"; the first column of
    [M] declared [unique=True] on which [r] repeats a stored row. *)
Definition conflict (M : Model) (existing : list row) (r : row) : option string :=
  List.find (fun c => match r !! c with Some v => taken c v existing | None => false end)
            (unique_columns M).

Definition row_id (r : row) : Z :=
  match r !! "id" with Some (VInt z) => z | _ => 0 end.

Definition next_id (existing : list row) : Z :=
  1 + fold_right Z.max 0 (List.map row_id existing).

(** Modelled from the spec: the storage engine, which is not part of the
    source.  It "persists/retrieves rows ..., enforcing uniqueness (email,
    subdomain)": inserting a row that repeats the value of a column
    declared [unique=True] fails with [UniquenessConflict] and stores
    nothing; otherwise the row is appended, with a fresh primary key when
    it has none.  Foreign keys are not checked in this model. *)
Definition persist (M : Model) (db : Database) (r : row) : Database * (error + row) :=
  match conflict M (rows db M) r with
  | Some c => (db, inl (UniquenessConflict c))
  | None =>
      let r' := match r !! "id" with
                | Some (VInt _) => r
                | _ => <["id" := VInt (next_id (rows db M))]> r
                end in
      (<[table_name M := rows db M ++ [r']]> db, inr r')
  end.

(** Modelled from the spec: the request layer's creation of a user, which
    is not part of the source.  "Entities are created by an external
    request-handling layer via the Create schemas": the payload is
    validated against [UserCreate], the password is replaced by its hash
    ([hash] stands for the hashing function, which the specification does
    not fix), the [User] row is built from the validated fields and handed
    to the storage engine. *)
Definition create_user (hash : str -> str) (now : datetime) (db : Database)
    (data : gmap string value) : Database * (error + row) :=
  match validate UserCreate now data with
  | inl errs => (db, inl (ValidationError_ errs))
  | inr u =>
      let pw := match attrs u !! "password" with Some (VStr s) => s | _ => [] end in
      let kw := <["password_hash" := VStr (hash pw)]> (delete "password" (attrs u)) in
      persist User db (attrs (construct User now kw))
  end.

(** Modelled from the spec: the request layer's application of an
    [*Update] schema to a stored row, which is not part of the source.
    "Only fields present are applied; omitted fields are untouched": the
    fields the caller supplied ([fields_set]) are assigned, in order, and
    nothing else is written (refreshing [updated_at] "is a caller
    responsibility, not automatic"). *)
Definition apply_update (patch : obj) (r : row) : row :=
  fold_right (fun n acc => match attrs patch !! n with
                           | Some v => <[n := v]> acc
                           | None => acc
                           end) r (fields_set patch).

Definition decimal_attr (r : row) (n : string) : Decimal :=
  match r !! n with Some (VDecimal d) => d | _ => Dec 0 0 end.

Definition Decimal_sum (l : list Decimal) : Decimal :=
  fold_right Decimal_add (Dec 0 (-2)) l.

(** Modelled from the spec: the report generator, which is not part of
    the source ("the report-generation logic is missing entirely and must
    be designed from the stated field semantics alone").  Over the sales
    and costs of one period: gross revenue is the sum of the sales'
    [net_amount] (900.00 in the example scenario, not the gross 1000.00),
    total costs the sum of the costs' [amount],
    [net_profit = gross_revenue - total_costs], the expert's share is
    [revenue_split_percentage] percent of net profit at two decimal
    places, and the operator's share is the rest of net profit. *)
Definition generate_report (now : datetime) (expert : row)
    (period_start period_end : datetime) (report_type : str)
    (sales costs : list row) : row :=
  let pct := decimal_attr expert "revenue_split_percentage" in
  let gross_revenue :=
    quantize (Decimal_sum (List.map (fun s => decimal_attr s "net_amount") sales)) (-2) in
  let total_costs :=
    quantize (Decimal_sum (List.map (fun c => decimal_attr c "amount") costs)) (-2) in
  let net_profit := Decimal_sub gross_revenue total_costs in
  let expert_share :=
    quantize (Decimal_mul net_profit (Decimal_mul pct (Dec 1 (-2)))) (-2) in
  let og_share := Decimal_sub net_profit expert_share in
  attrs (construct FinancialReport now (list_to_map [
    ("expert_id", default VNone (expert !! "id"));
    ("period_start", VDatetime period_start);
    ("period_end", VDatetime period_end);
    ("report_type", VStr report_type);
    ("gross_revenue", VDecimal gross_revenue);
    ("total_costs", VDecimal total_costs);
    ("net_profit", VDecimal net_profit);
    ("og_share", VDecimal og_share);
    ("expert_share", VDecimal expert_share);
    ("total_sales_count", VInt (Z.of_nat (length sales)))
  ])).

(** The accounting identities on a report row. *)
Definition shares_add_up (r : row) : Prop :=
  exists o e n,
    r !! "og_share" = Some (VDecimal o) /\
    r !! "expert_share" = Some (VDecimal e) /\
    r !! "net_profit" = Some (VDecimal n) /\
    Decimal_eqb (Decimal_add o e) n = true.

Definition profit_is_revenue_less_costs (r : row) : Prop :=
  exists g c n,
    r !! "gross_revenue" = Some (VDecimal g) /\
    r !! "total_costs" = Some (VDecimal c) /\
    r !! "net_profit" = Some (VDecimal n) /\
    Decimal_eqb (Decimal_sub g c) n = true.

(** ** Serialization

    What pydantic's [model_dump] writes for a value in JSON mode.  JSON
    has strings, integers, booleans, null and mappings but neither
    decimals, timestamps nor enumerations: a [Decimal] is written as its
    exact decimal text, a [datetime] in ISO format, a member of an
    enumeration as its string value, and a mapping entry by entry. *)
Fixpoint jsonable (v : value) : value :=
  match v with
  | VDecimal d => VStr (Decimal_str d)
  | VDatetime t => VStr (isoformat t)
  | VEnum m => VStr (py (member_value m))
  | VDict items => VDict (List.map (fun kv => (fst kv, jsonable (snd kv))) items)
  | _ => v
  end.

(** [model_dump] in JSON mode, on the attributes of an instance;
    reading the result back is validation against the model. *)
Definition model_dump (r : row) : gmap string value := jsonable <$> r.

(** Values JSON holds as they are. *)
Fixpoint json_native (v : value) : bool :=
  match v with
  | VNone | VStr _ | VInt _ | VBool _ => true
  | VDict items => forallb (fun kv => json_native (snd kv)) items
  | VDecimal _ | VDatetime _ | VEnum _ => false
  end.

(** [v] is a value of the annotated type [t]: what a field of that type
    holds once validated.  Timestamps are dates the calendar has, and
    where the annotation is [Any] the value is one JSON holds. *)
Fixpoint typed (t : Ty) (v : value) : bool :=
  match t, v with
  | TOptional _, VNone => true
  | TOptional t', _ => typed t' v
  | TInt, VInt _ => true
  | TStr, VStr _ => true
  | TBool, VBool _ => true
  | TDecimal, VDecimal _ => true
  | TDatetime, VDatetime d => datetime_valid d
  | TEnum k, VEnum m => bool_decide (class_of m = k)
  | TAny, _ => json_native v
  | TDict t', VDict items => forallb (fun kv => typed t' (snd kv)) items
  | _, _ => false
  end.

(** [r] is an instance of [M]: it has a value of the declared type,
    within the declared constraints, for every field, and no other
    attribute. *)
Definition is_instance (M : Model) (r : row) : Prop :=
  (forall n, is_Some (r !! n) -> n ∈ field_names M) /\
  Forall (fun f => exists v, r !! fname f = Some v /\
                             typed (ftype f) v = true /\
                             check f v = None) (fields M).

(** ** The models of the file, by kind, and their keys *)

(** Every model of the file. *)
Definition all_models : list Model :=
  [User; Expert; Sale; OperationalCost; FinancialReport;
   UserCreate; UserUpdate; ExpertCreate; ExpertUpdate; SaleCreate;
   OperationalCostCreate; OperationalCostUpdate;
   FinancialSummary; ExpertFinancialSummary].

Definition create_schemas : list Model :=
  [UserCreate; ExpertCreate; SaleCreate; OperationalCostCreate].

Definition update_schemas : list Model :=
  [UserUpdate; ExpertUpdate; OperationalCostUpdate].

Definition summary_schemas : list Model :=
  [FinancialSummary; ExpertFinancialSummary].

(** A field without [default] and without [default_factory]. *)
Definition is_required (f : FieldDecl) : bool :=
  match kw_find (fun k => match k with
                          | Kw.default _ | Kw.default_factory_utcnow => Some tt
                          | _ => None
                          end) (kwargs f) with
  | Some _ => false
  | None => true
  end.

Definition required (M : Model) : list string :=
  List.map fname (List.filter is_required (fields M)).

(** The field of [M'] with the name [n]. *)
Definition counterpart (M' : Model) (n : string) : option FieldDecl :=
  List.find (fun f => String.eqb (fname f) n) (fields M').

(** [f'] has the type of [f] and asks no more of a value than [f] does:
    each of its constraints is absent or is that of [f]. *)
Definition no_stricter (f' f : FieldDecl) : Prop :=
  ftype f' = ftype f /\
  (get_min_length f' = None \/ get_min_length f' = get_min_length f) /\
  (get_max_length f' = None \/ get_max_length f' = get_max_length f) /\
  (get_regex f' = None \/ get_regex f' = get_regex f) /\
  ((get_max_digits f' = None /\ get_decimal_places f' = None) \/
   (get_max_digits f' = get_max_digits f /\
    get_decimal_places f' = get_decimal_places f)).

(** The Create schemas with the table each one feeds, and the fields of
    the schema that have no column of that type to go to. *)
Definition creates : list (Model * Model * list string) :=
  [(UserCreate, User, ["password"]);
   (ExpertCreate, Expert, []);
   (SaleCreate, Sale, ["sale_date"]);
   (OperationalCostCreate, OperationalCost, ["cost_date"])].

Definition get_foreign_key (f : FieldDecl) : option string :=
  kw_find (fun k => match k with Kw.foreign_key t => Some t | _ => None end) (kwargs f).

Definition is_primary_key (f : FieldDecl) : bool :=
  match kw_find (fun k => match k with Kw.primary_key => Some tt | _ => None end)
                (kwargs f) with
  | Some _ => true
  | None => false
  end.

Definition primary_keys (M : Model) : list string :=
  List.map fname (List.filter is_primary_key (fields M)).

(** The tables of the file. *)
Definition tables : list Model := List.filter table all_models.

(** ** Relationships, and what calling a model class does

    A [Relationship(...)] attribute names the class at its other end and
    the attribute that mirrors it there; [sa_relationship_kwargs] may name
    the foreign-key column the relationship goes through. *)

Record RelationshipDecl : Type := Relationship {
  rname : string;
  target : string;
  back_populates : string;
  foreign_keys : option string
}.

Definition User_relationships : list RelationshipDecl := [
  Relationship "expert_business" "Expert" "owner" None;
  Relationship "created_experts" "Expert" "created_by" (Some "Expert.created_by_id");
  Relationship "created_costs" "OperationalCost" "created_by" None
].

Definition Expert_relationships : list RelationshipDecl := [
  Relationship "owner" "User" "expert_business" (Some "Expert.owner_id");
  Relationship "created_by" "User" "created_experts" (Some "Expert.created_by_id");
  Relationship "sales" "Sale" "expert" None;
  Relationship "operational_costs" "OperationalCost" "expert" None;
  Relationship "financial_reports" "FinancialReport" "expert" None
].

Definition Sale_relationships : list RelationshipDecl := [
  Relationship "expert" "Expert" "sales" None
].

Definition OperationalCost_relationships : list RelationshipDecl := [
  Relationship "expert" "Expert" "operational_costs" None;
  Relationship "created_by" "User" "created_costs" None
].

Definition FinancialReport_relationships : list RelationshipDecl := [
  Relationship "expert" "Expert" "financial_reports" None
].

(** The mapped classes of the file, each with its relationships: what
    SQLAlchemy's registry holds once the module is imported. *)
Definition registry : list (Model * list RelationshipDecl) := [
  (User, User_relationships);
  (Expert, Expert_relationships);
  (Sale, Sale_relationships);
  (OperationalCost, OperationalCost_relationships);
  (FinancialReport, FinancialReport_relationships)
].

(** What calling a model class, or [model_validate], can raise. *)
Inductive exception : Type :=
| pydantic_ValidationError (errs : ValidationError)
| AmbiguousForeignKeysError (relationship : string)
| NoForeignKeysError (relationship : string)
| InvalidRequestError (name : string).

(** The table of a foreign-key target [table.column]. *)
Fixpoint before_dot (s : string) : string :=
  match s with
  | EmptyString => EmptyString
  | String c s' => if Ascii.eqb c "." then EmptyString else String c (before_dot s')
  end.

(** [Class.attribute]. *)
Definition qualified (M : Model) (n : string) : string :=
  String.append (cls M) (String.append "." n).

(** The columns of [A] that are foreign keys into the table of [B]. *)
Definition foreign_keys_into (A B : Model) : list string :=
  List.map (fun f => qualified A (fname f))
    (List.filter (fun f => match get_foreign_key f with
                           | Some t => String.eqb (before_dot t) (table_name B)
                           | None => false
                           end) (fields A)).

(** The foreign keys a relationship [r] of [A] to [B] can go through:
    those of [B] into [A] and those of [A] into [B], narrowed to the
    column [foreign_keys] names when it is given. *)
Definition foreign_key_paths (A B : Model) (r : RelationshipDecl) : list string :=
  let paths :=
    foreign_keys_into B A ++
    (if String.eqb (cls A) (cls B) then [] else foreign_keys_into A B) in
  match foreign_keys r with
  | Some c => List.filter (String.eqb c) paths
  | None => paths
  end.

(** How SQLAlchemy determines the join of a relationship: through the one
    foreign key that links the two tables.  With none it raises
    [NoForeignKeysError], with several [AmbiguousForeignKeysError]. *)
Definition join_condition (A B : Model) (r : RelationshipDecl)
    : exception + string :=
  match foreign_key_paths A B r with
  | [] => inl (NoForeignKeysError (qualified A (rname r)))
  | [c] => inr c
  | _ :: _ :: _ => inl (AmbiguousForeignKeysError (qualified A (rname r)))
  end.

Definition find_class (reg : list (Model * list RelationshipDecl)) (name : string)
    : option Model :=
  fst <$> List.find (fun e => String.eqb (cls (fst e)) name) reg.

(** The configuration of one relationship of [A]. *)
Definition configure_relationship (reg : list (Model * list RelationshipDecl))
    (A : Model) (r : RelationshipDecl) : option exception :=
  match find_class reg (target r) with
  | None => Some (InvalidRequestError (target r))
  | Some B =>
      match join_condition A B r with
      | inl e => Some e
      | inr _ => None
      end
  end.

Fixpoint first_failure {A : Type} (conf : A -> option exception) (l : list A)
    : option exception :=
  match l with
  | [] => None
  | x :: l' => match conf x with Some e => Some e | None => first_failure conf l' end
  end.

(** [configure_mappers()]: every relationship of every mapped class is
    configured; the first failure is raised.  SQLAlchemy runs it when a
    mapped class is used for the first time, for the whole registry. *)
Definition configure_mappers (reg : list (Model * list RelationshipDecl))
    : option exception :=
  first_failure
    (fun e => first_failure (configure_relationship reg (fst e)) (snd e)) reg.

(** The class [M] called with the entries of [data] as keyword
    arguments, in a process that has just imported the module.  A schema
    validates.  A table model is a mapped class: the mappers are
    configured before anything is assigned, and the attributes are then
    set without validation. *)
Definition init (M : Model) (now : datetime) (data : gmap string value)
    : exception + obj :=
  if table M then
    match configure_mappers registry with
    | Some e => inl e
    | None => inr (construct M now data)
    end
  else
    match validate M now data with
    | inl errs => inl (pydantic_ValidationError errs)
    | inr o => inr o
    end.

(** [M.model_validate(data)] in such a process: for a table model SQLModel
    creates the instance it is going to fill before it validates, which
    configures the mappers. *)
Definition model_validate (M : Model) (now : datetime) (data : gmap string value)
    : exception + obj :=
  match (if table M then configure_mappers registry else None) with
  | Some e => inl e
  | None =>
      match validate M now data with
      | inl errs => inl (pydantic_ValidationError errs)
      | inr o => inr o
      end
  end.

(** * Properties *)

(** ** The definitions on concrete inputs *)

Example email_accepted :
  Re.fullmatch EMAIL_REGEX (py "ana.silva+og@og-digital.com.br") = true.
Proof. vm_compute. reflexivity. Qed.

Example email_without_at : Re.fullmatch EMAIL_REGEX (py "not-an-email") = false.
Proof. vm_compute. reflexivity. Qed.

Example email_without_dot : Re.fullmatch EMAIL_REGEX (py "ana@localhost") = false.
Proof. vm_compute. reflexivity. Qed.

Example Decimal_str_examples :
  List.map Decimal_str
    [Dec 6250 (-2); Dec 500 (-1); Dec (-5) (-3); Dec 0 (-2); Dec 5 (-7); Dec 1 2]
  = List.map py ["62.50"; "50.0"; "-0.005"; "0.00"; "5E-7"; "1E+2"]%string.
Proof. vm_compute. reflexivity. Qed.

Example Decimal_of_str_examples :
  List.map (fun s => Decimal_of_str (py s)) ["62.50"; "-0.005"; "1E+2"; "12a"; ""]%string
  = [Some (Dec 6250 (-2)); Some (Dec (-5) (-3)); Some (Dec 1 2); None; None].
Proof. vm_compute. reflexivity. Qed.

Example normalize_examples :
  List.map normalize
    [Dec 62500 (-3); Dec 150000 (-2); Dec 0 (-2); Dec (-500) (-2); Dec 5 (-3);
     Dec 100000000000000000000000000001 (-29)]
  = [Dec 625 (-1); Dec 15 2; Dec 0 0; Dec (-5) 0; Dec 5 (-3); Dec 1 0].
Proof. vm_compute. reflexivity. Qed.

Example extract_decimal_digits_info_examples :
  List.map (fun d => (extract_decimal_digits_info d false,
                      extract_decimal_digits_info d true))
    [Dec 62500 (-3); Dec 150000 (-2); Dec 0 (-2); Dec 5 (-3); Dec 1 2]
  = [((3, 5), (1, 3)); ((2, 6), (0, 4)); ((2, 2), (0, 1)); ((3, 3), (3, 3));
     ((0, 3), (0, 3))]%nat.
Proof. vm_compute. reflexivity. Qed.

Example isoformat_example :
  isoformat (Datetime 2024 2 29 23 59 0 120) = py "2024-02-29T23:59:00.000120".
Proof. vm_compute. reflexivity. Qed.

Example UserCreate_errors :
  validate UserCreate (Datetime 2024 1 1 0 0 0 0)
    (list_to_map [("email", VStr (py "ab.co")); ("password", VStr (py "1234567"))])
  = inl [("password", string_too_short 8); ("name", missing)].
Proof. vm_compute. reflexivity. Qed.

Example ExpertCreate_too_many_digits :
  List.map (fun s =>
    validate_value (Field "revenue_split_percentage" TDecimal
                      [Kw.default (VDecimal (Dec 500 (-1))); Kw.max_digits 5;
                       Kw.decimal_places 2]) (VStr (py s)))
    ["62.500"; "1500.00"; "123456"; "0.125"]%string
  = [inr (VDecimal (Dec 62500 (-3))); inl (decimal_whole_digits 3);
     inl (decimal_max_digits 5); inl (decimal_max_places 2)].
Proof. vm_compute. reflexivity. Qed.

(** ** Decimal arithmetic is exact *)

Lemma ten_nonzero : ~ (inject_Z 10 == 0)%Q.
Proof. discriminate. Qed.

Lemma rescale_value d e :
  e <= exp d -> (inject_Z (rescale d e) * inject_Z 10 ^ e == Decimal_value d)%Q.
Proof.
  intros He. unfold rescale, Decimal_value.
  rewrite inject_Z_mult, Zpower_Qpower by lia.
  rewrite <- Qmult_assoc, <- Qpower_plus by apply ten_nonzero.
  by replace (exp d - e + e) with (exp d) by lia.
Qed.

Lemma scaled_inj x y e :
  (inject_Z x * inject_Z 10 ^ e == inject_Z y * inject_Z 10 ^ e)%Q <-> x = y.
Proof.
  rewrite Qmult_inj_r by (apply Qpower_not_0, ten_nonzero).
  apply inject_Z_injective.
Qed.

Lemma scaled_le x y e :
  (inject_Z x * inject_Z 10 ^ e <= inject_Z y * inject_Z 10 ^ e)%Q <-> x <= y.
Proof.
  assert (Hpos : (0 < inject_Z 10 ^ e)%Q) by (by apply Qpower_0_lt).
  rewrite Zle_Qle. split; intros H.
  - by apply Qmult_le_r in H.
  - by apply Qmult_le_r.
Qed.

(** [==] and [<=] on decimals are those of the numbers they denote, and
    [+], [-] and [*] are exact. *)
Lemma Decimal_eqb_value a b :
  Decimal_eqb a b = true <-> (Decimal_value a == Decimal_value b)%Q.
Proof.
  unfold Decimal_eqb. set (m := Z.min (exp a) (exp b)).
  rewrite Z.eqb_eq, <- (scaled_inj _ _ m), !rescale_value by lia. done.
Qed.

Lemma Decimal_leb_value a b :
  Decimal_leb a b = true <-> (Decimal_value a <= Decimal_value b)%Q.
Proof.
  unfold Decimal_leb. set (m := Z.min (exp a) (exp b)).
  rewrite Z.leb_le, <- (scaled_le _ _ m), !rescale_value by lia. done.
Qed.

Lemma Decimal_add_value a b :
  (Decimal_value (Decimal_add a b) == Decimal_value a + Decimal_value b)%Q.
Proof.
  unfold Decimal_add. set (m := Z.min (exp a) (exp b)).
  rewrite <- (rescale_value a m), <- (rescale_value b m) by lia.
  unfold Decimal_value. cbn [coef exp]. rewrite inject_Z_plus. ring.
Qed.

Lemma Decimal_sub_value a b :
  (Decimal_value (Decimal_sub a b) == Decimal_value a - Decimal_value b)%Q.
Proof.
  unfold Decimal_sub. set (m := Z.min (exp a) (exp b)).
  rewrite <- (rescale_value a m), <- (rescale_value b m) by lia.
  unfold Decimal_value. cbn [coef exp].
  unfold Z.sub. rewrite inject_Z_plus, inject_Z_opp. ring.
Qed.

Lemma Decimal_mul_value a b :
  (Decimal_value (Decimal_mul a b) == Decimal_value a * Decimal_value b)%Q.
Proof.
  unfold Decimal_mul, Decimal_value. cbn [coef exp].
  rewrite inject_Z_mult, Qpower_plus by apply ten_nonzero. ring.
Qed.

(** ** The matcher computes the language of the pattern *)

Section regex.
Import Re.

Lemma nullable_Matches r : nullable r = true <-> Matches r [].
Proof.
  induction r; simpl.
  - split; [discriminate | inversion 1].
  - split; [constructor | reflexivity].
  - split; [discriminate | inversion 1].
  - rewrite andb_true_iff, IHr1, IHr2. split.
    + intros [H1 H2]. apply (MCat _ _ [] []); assumption.
    + intros H. inv H.
      match goal with E : _ ++ _ = [] |- _ => apply app_eq_nil in E as [-> ->] end.
      auto.
  - rewrite orb_true_iff, IHr1, IHr2. split.
    + intros [H|H]; [apply MAltL | apply MAltR]; assumption.
    + intros H. inv H; auto.
  - split; [constructor | reflexivity].
Qed.

(** A non-empty match of [a*] starts with a non-empty match of [a]. *)
Lemma Matches_Star_cons a c s :
  Matches (Star a) (c :: s) ->
  exists s1 s2, s = s1 ++ s2 /\ Matches a (c :: s1) /\ Matches (Star a) s2.
Proof.
  intros H. remember (Star a) as r eqn:Hr. remember (c :: s) as w eqn:Hw.
  revert s Hw. induction H; intros s' Hw; try discriminate.
  inversion Hr; subst. destruct s1 as [|x s1]; simpl in Hw.
  - apply IHMatches2; auto.
  - inversion Hw; subst. exists s1, s2. auto.
Qed.

Lemma Matches_Cat_cons a b c s :
  Matches (Cat a b) (c :: s) ->
  (exists s1 s2, s = s1 ++ s2 /\ Matches a (c :: s1) /\ Matches b s2)
  \/ (Matches a [] /\ Matches b (c :: s)).
Proof.
  intros H. inversion H as [| |a' b' s1 s2 H1 H2 E1 E2| | | |]; subst.
  destruct s1 as [|x s1]; simpl in *.
  - right. subst. auto.
  - left. inversion E2; subst. eauto.
Qed.

Lemma deriv_Matches c r s : Matches (deriv c r) s <-> Matches r (c :: s).
Proof.
  revert s. induction r; intros s; simpl.
  - split; inversion 1.
  - split; inversion 1.
  - destruct (in_ranges c ranges) eqn:E; split; intros H; inv H.
    + constructor; assumption.
    + constructor.
    + congruence.
  - assert (Hcat : Matches (Cat (deriv c r1) r2) s <->
                   exists s1 s2, s = s1 ++ s2 /\ Matches r1 (c :: s1) /\ Matches r2 s2).
    { split.
      - intros H. inv H. eexists _, _. rewrite <- IHr1. eauto.
      - intros (s1 & s2 & -> & H1 & H2). constructor; [apply IHr1 |]; assumption. }
    destruct (nullable r1) eqn:N.
    + split; intros H.
      * inv H.
        -- match goal with H : Matches (Cat _ _) _ |- _ =>
             apply Hcat in H as (s1 & s2 & -> & H1 & H2) end.
           apply (MCat _ _ (c :: s1) s2); assumption.
        -- apply (MCat _ _ [] (c :: s)); [apply nullable_Matches | apply IHr2]; assumption.
      * apply Matches_Cat_cons in H as [(s1 & s2 & -> & H1 & H2) | [H1 H2]].
        -- apply MAltL, Hcat. eauto.
        -- apply MAltR, IHr2. assumption.
    + rewrite Hcat. split.
      * intros (s1 & s2 & -> & H1 & H2). apply (MCat _ _ (c :: s1) s2); assumption.
      * intros H. apply Matches_Cat_cons in H as [H | [H1 H2]]; [assumption |].
        apply nullable_Matches in H1. congruence.
  - split; intros H; inv H;
      solve [apply MAltL, IHr1; assumption | apply MAltR, IHr2; assumption].
  - split; intros H.
    + inv H. apply (MStarS _ (c :: s1) s2); [apply IHr |]; assumption.
    + apply Matches_Star_cons in H as (s1 & s2 & -> & H1 & H2).
      constructor; [apply IHr |]; assumption.
Qed.

Lemma fullmatch_Matches r s : fullmatch r s = true <-> Matches r s.
Proof.
  unfold fullmatch. revert r. induction s as [|c s IH]; intros r; simpl.
  - apply nullable_Matches.
  - rewrite IH. apply deriv_Matches.
Qed.

End regex.

Lemma Matches_Star_Set rs s :
  Re.Matches (Re.Star (Re.Set_ rs)) s <-> Forall (fun c => Re.in_ranges c rs = true) s.
Proof.
  split.
  - intros H. remember (Re.Star (Re.Set_ rs)) as r eqn:Hr.
    induction H; try discriminate; [constructor |].
    injection Hr as ->. inv H. simpl. constructor; auto.
  - induction 1 as [|c s Hc _ IH]; [constructor |].
    apply (Re.MStarS _ [c] s); [by constructor | done].
Qed.

Lemma Matches_Plus_Set rs s :
  Re.Matches (Re.Plus (Re.Set_ rs)) s <->
  s ≠ [] /\ Forall (fun c => Re.in_ranges c rs = true) s.
Proof.
  unfold Re.Plus. split.
  - intros H. inv H. match goal with H : Re.Matches (Re.Set_ _) _ |- _ => inv H end.
    split; [done |]. simpl. constructor; [done |]. by apply Matches_Star_Set.
  - intros [Hne H]. destruct H as [|c s Hc Hs]; [done |].
    apply (Re.MCat _ _ [c] s); [by constructor | by apply Matches_Star_Set].
Qed.

Lemma Matches_Lit c s : Re.Matches (Re.Lit c) s <-> s = [code c].
Proof.
  unfold Re.Lit, Re.chr, Re.in_ranges. split.
  - intros H. inv H. simpl in *. f_equal.
    rewrite orb_false_r in *. apply andb_true_iff in H1 as [?%N.leb_le ?%N.leb_le]. lia.
  - intros ->. constructor. simpl. by rewrite N.leb_refl.
Qed.

(** What the e-mail pattern accepts: a non-empty local part of letters,
    digits and [_.+-], an [@], a non-empty label of letters, digits and
    [-], a dot, and a non-empty rest of letters, digits, [-] and dots. *)
Lemma EMAIL_REGEX_matches s :
  Re.fullmatch EMAIL_REGEX s = true <->
  exists loc dom rest,
    s = loc ++ [code "@"] ++ dom ++ [code "."] ++ rest /\
    loc ≠ [] /\ dom ≠ [] /\ rest ≠ [] /\
    Forall (fun c => Re.in_ranges c [Re.range "a" "z"; Re.range "A" "Z"; Re.range "0" "9";
                                     Re.chr "_"; Re.chr "."; Re.chr "+"; Re.chr "-"] = true) loc /\
    Forall (fun c => Re.in_ranges c [Re.range "a" "z"; Re.range "A" "Z"; Re.range "0" "9";
                                     Re.chr "-"] = true) dom /\
    Forall (fun c => Re.in_ranges c [Re.range "a" "z"; Re.range "A" "Z"; Re.range "0" "9";
                                     Re.chr "-"; Re.chr "."] = true) rest.
Proof.
  rewrite fullmatch_Matches. unfold EMAIL_REGEX. split.
  - intros H.
    repeat match goal with
           | H : Re.Matches (Re.Plus _) _ |- _ => apply Matches_Plus_Set in H as [? ?]
           | H : Re.Matches (Re.Lit _) _ |- _ => apply Matches_Lit in H as ->
           | H : Re.Matches (Re.Cat _ _) _ |- _ => inv H
           end.
    eexists _, _, _. split; [reflexivity |]. by repeat split.
  - intros (loc & dom & rest & -> & ? & ? & ? & ? & ? & ?).
    repeat (apply Re.MCat); first [by apply Matches_Plus_Set | by apply Matches_Lit].
Qed.

(** ** Validation, field by field *)

Section validation.
Variable now : datetime.

Lemma validate_fields_err fs data f e :
  f ∈ fs -> validate_field now f data = inl e ->
  (fname f, e) ∈ (validate_fields now fs data).1.
Proof.
  induction fs as [|g fs IH]; intros Hin He; [by apply elem_of_nil in Hin|].
  simpl. destruct (validate_fields now fs data) as [errs a] eqn:E.
  apply elem_of_cons in Hin as [<- | Hin].
  - rewrite He. simpl. left.
  - destruct (validate_field now g data); simpl in *; [right |]; by apply IH.
Qed.

Lemma validate_fields_attr fs data f v :
  NoDup (List.map fname fs) -> f ∈ fs -> validate_field now f data = inr v ->
  (validate_fields now fs data).1 = [] ->
  (validate_fields now fs data).2 !! fname f = Some v.
Proof.
  induction fs as [|g fs IH]; intros Hnd Hin Hv; [by apply elem_of_nil in Hin|].
  simpl. destruct (validate_fields now fs data) as [errs a] eqn:E.
  apply NoDup_cons in Hnd as [Hg Hnd].
  destruct (validate_field now g data) as [e' | w] eqn:G; simpl; [discriminate |].
  intros ->. apply elem_of_cons in Hin as [<- | Hin].
  - rewrite Hv in G. injection G as ->. by rewrite lookup_insert_eq.
  - rewrite lookup_insert_ne; [by apply IH |].
    intros Heq. apply Hg. rewrite Heq.
    apply list_elem_of_In, in_map, list_elem_of_In, Hin.
Qed.

Lemma validate_fields_dom fs data n :
  is_Some ((validate_fields now fs data).2 !! n) -> n ∈ List.map fname fs.
Proof.
  induction fs as [|g fs IH]; simpl.
  - rewrite lookup_empty. by intros [? ?].
  - destruct (validate_fields now fs data) as [errs a] eqn:E.
    destruct (validate_field now g data); simpl in *.
    + intros H. right. by apply IH.
    + destruct (decide (fname g = n)) as [-> | Hne]; [left |].
      rewrite lookup_insert_ne by done. intros H. right. by apply IH.
Qed.

(** An accepted payload passed every field, and the instance holds the
    validated value of each. *)
Lemma validate_inr M data o f :
  validate M now data = inr o -> f ∈ fields M ->
  exists v, validate_field now f data = inr v /\
            (NoDup (field_names M) -> attrs o !! fname f = Some v).
Proof.
  unfold validate. intros H Hin.
  destruct (validate_fields now (fields M) data) as [errs a] eqn:E.
  destruct errs as [|e0 errs]; [| discriminate]. injection H as <-.
  destruct (validate_field now f data) as [e | v] eqn:F.
  - pose proof (validate_fields_err _ _ _ _ Hin F) as H. rewrite E in H.
    by apply elem_of_nil in H.
  - exists v. split; [done |]. intros Hnd. simpl.
    pose proof (validate_fields_attr _ _ _ _ Hnd Hin F) as H. rewrite E in H.
    by apply H.
Qed.

(** A field that fails makes the payload fail, and is reported. *)
Lemma validate_inl M data f e :
  f ∈ fields M -> validate_field now f data = inl e ->
  exists errs, validate M now data = inl errs /\ (fname f, e) ∈ errs.
Proof.
  intros Hin F. unfold validate.
  pose proof (validate_fields_err _ _ _ _ Hin F) as H.
  destruct (validate_fields now (fields M) data) as [errs a] eqn:E. simpl in H.
  destruct errs as [|e0 errs]; [by apply elem_of_nil in H |]. eauto.
Qed.

(** An instance has no attribute outside the declared fields. *)
Lemma validate_attrs_declared M data o n :
  validate M now data = inr o -> is_Some (attrs o !! n) -> n ∈ field_names M.
Proof.
  unfold validate. intros H Hn.
  destruct (validate_fields now (fields M) data) as [errs a] eqn:E.
  destruct errs; [| discriminate]. injection H as <-. simpl in Hn.
  pose proof (validate_fields_dom (fields M) data n) as H. rewrite E in H. by apply H.
Qed.

Lemma validate_fields_set M data o :
  validate M now data = inr o -> fields_set o = supplied (fields M) data.
Proof.
  unfold validate. destruct (validate_fields now (fields M) data) as [[|e errs] a];
    [| discriminate]. by intros [= <-].
Qed.

Lemma validate_fields_no_err fs data :
  forallb (fun f => match validate_field now f data with
                    | inr _ => true
                    | inl _ => false
                    end) fs = true ->
  (validate_fields now fs data).1 = [].
Proof.
  induction fs as [|g fs IH]; simpl; [done |].
  destruct (validate_fields now fs data) as [errs a].
  destruct (validate_field now g data); simpl; [done |]. exact IH.
Qed.

(** A payload is accepted exactly when each of its fields passes. *)
Lemma validate_accepts M data :
  accepts M now data = true <-> exists o, validate M now data = inr o.
Proof.
  unfold accepts, validate. split.
  - intros H%validate_fields_no_err.
    destruct (validate_fields now (fields M) data) as [errs a]. simpl in H.
    subst errs. eauto.
  - intros [o Ho]. apply forallb_forall. intros f Hf%list_elem_of_In.
    destruct (validate_field now f data) as [e |] eqn:F; [| done].
    pose proof (validate_fields_err _ _ _ _ Hf F) as H.
    destruct (validate_fields now (fields M) data) as [[|e0 errs] a];
      [by apply elem_of_nil in H | discriminate].
Qed.

End validation.

(** ** String fields *)

Section string_fields.
Variable now : datetime.

(** A required [str] field accepts exactly the strings that pass its
    constraints, and keeps them as they are. *)
Lemma validate_str_field_inr n kws data v :
  get_default now (Field n TStr kws) = None ->
  validate_field now (Field n TStr kws) data = inr v ->
  exists s, data !! n = Some (VStr s) /\ v = VStr s /\
            check_str (Field n TStr kws) s = None.
Proof.
  unfold validate_field, validate_value. simpl. intros ->.
  destruct (data !! n) as [[]|]; simpl; try discriminate.
  destruct (check_str _ s) eqn:E; [discriminate |].
  intros [= <-]. eauto.
Qed.

(** An optional [str] field with a maximum length accepts every string
    within it. *)
Lemma validate_optional_str_field n k data s :
  data !! n = Some (VStr s) -> (length s <= k)%nat ->
  validate_field now (Field n (Optional TStr) [None_; Kw.max_length k]) data
  = inr (VStr s).
Proof.
  intros Hs Hlen. unfold validate_field, validate_value. simpl. rewrite Hs. simpl.
  unfold check_str, get_min_length, get_max_length. simpl.
  destruct (Nat.ltb_spec k (length s)); [lia | done].
Qed.

End string_fields.

Lemma NoDup_UserCreate : NoDup (field_names UserCreate).
Proof. by apply (bool_decide_unpack _); vm_compute. Qed.

Lemma NoDup_ExpertCreate : NoDup (field_names ExpertCreate).
Proof. by apply (bool_decide_unpack _); vm_compute. Qed.

Lemma NoDup_ExpertUpdate : NoDup (field_names ExpertUpdate).
Proof. by apply (bool_decide_unpack _); vm_compute. Qed.

Lemma NoDup_OperationalCostUpdate : NoDup (field_names OperationalCostUpdate).
Proof. by apply (bool_decide_unpack _); vm_compute. Qed.

(** What the constraints of the two e-mail fields that declare a pattern
    come to: the maximum length. *)
Lemma check_email s :
  check_str (Field "email" TStr [Kw.max_length 255; Kw.regex EMAIL_REGEX]) s = None
  <-> (length s <= 255)%nat.
Proof.
  unfold check_str, get_min_length, get_max_length. simpl.
  destruct (Nat.ltb_spec 255 (length s)); split; try done; lia.
Qed.

Lemma check_password s :
  check_str (Field "password" TStr [Kw.min_length 8; Kw.max_length 100]) s =
  if (length s <? 8)%nat then Some (string_too_short 8)
  else if (100 <? length s)%nat then Some (string_too_long 100) else None.
Proof.
  unfold check_str, get_min_length, get_max_length. simpl.
  destruct (length s <? 8)%nat; simpl; [done |].
  by destruct (100 <? length s)%nat.
Qed.

(** ** Rows: construction and storage *)

Lemma construct_fields_supplied now fs data n v :
  data !! n = Some v -> n ∈ List.map fname fs ->
  construct_fields now fs data !! n = Some v.
Proof.
  intros Hn. induction fs as [|g fs IH]; simpl; [by intros ?%elem_of_nil |].
  intros Hin. destruct (decide (fname g = n)) as [-> | Hne].
  - rewrite Hn. by rewrite lookup_insert_eq.
  - apply elem_of_cons in Hin as [? | Hin]; [congruence |].
    destruct (data !! fname g); [by rewrite lookup_insert_ne; auto |].
    destruct (get_default now g); [rewrite lookup_insert_ne |]; auto.
Qed.

Lemma rows_insert M (db : Database) (l : list row) :
  rows (<[table_name M := l]> db) M = l.
Proof. unfold rows. by rewrite lookup_insert_eq. Qed.

(** A successful [persist] appends the row, changed at most in its [id]. *)
Lemma persist_inr M (db db' : Database) (r r' : row) :
  persist M db r = (db', inr r') ->
  rows db' M = rows db M ++ [r'] /\
  conflict M (rows db M) r = None /\
  forall n, n ≠ "id" -> r' !! n = r !! n.
Proof.
  unfold persist. destruct (conflict M (rows db M) r); [discriminate |].
  intros [= <- <-]. rewrite rows_insert. split; [done |]. split; [done |].
  intros n Hn. destruct (r !! "id") as [[]|]; try done; by rewrite lookup_insert_ne.
Qed.

(** A failed [persist] leaves the database as it was. *)
Lemma persist_inl M (db db' : Database) (r : row) e :
  persist M db r = (db', inl e) -> db' = db.
Proof.
  unfold persist. destruct (conflict M (rows db M) r); [by intros [= <- _] |].
  discriminate.
Qed.

(** An accepted [UserCreate] payload carries a string of at most 255
    characters as its e-mail, which the instance keeps. *)
Lemma UserCreate_accepted_email now data u :
  validate UserCreate now data = inr u ->
  exists s, data !! "email" = Some (VStr s) /\
            (length s <= 255)%nat /\
            attrs u !! "email" = Some (VStr s).
Proof.
  set (f := Field "email" TStr [Kw.max_length 255; Kw.regex EMAIL_REGEX]).
  assert (Hf : f ∈ fields UserCreate) by (simpl; left).
  intros Hu. destruct (validate_inr now _ _ _ f Hu Hf) as (v & Hv & Ha).
  apply validate_str_field_inr in Hv as (s & Hs & -> & Hc); [| done].
  exists s. split; [done |]. split.
  - by apply check_email.
  - apply Ha, NoDup_UserCreate.
Qed.

(** ** C2: the e-mail of a [UserCreate] payload *)

(** C2.  [UserCreate.email] declares the pattern
    [^[a-zA-Z0-9_.+-]+@[a-zA-Z0-9-]+\.[a-zA-Z0-9-.]+$] with [regex=], and
    validation does not apply it.  The payload with the e-mail
    [ana.og.digital], which has no [@] and does not match the pattern, is
    accepted, by [model_validate] and by the constructor, and the instance
    keeps the string. *)
Theorem UserCreate_email_regex_not_enforced (now : datetime) :
  let data : gmap string value :=
    list_to_map [("email", VStr (py "ana.og.digital"));
                 ("password", VStr (py "s3cret-pass"));
                 ("name", VStr (py "Ana"))] in
  (exists f, f ∈ fields UserCreate /\ fname f = "email" /\
             get_regex f = Some EMAIL_REGEX)
  /\ Re.fullmatch EMAIL_REGEX (py "ana.og.digital") = false
  /\ exists u, validate UserCreate now data = inr u /\
                model_validate UserCreate now data = inr u /\
                init UserCreate now data = inr u /\
                attrs u !! "email" = Some (VStr (py "ana.og.digital")).
Proof.
  intros data.
  set (f := Field "email" TStr [Kw.max_length 255; Kw.regex EMAIL_REGEX]).
  assert (Hf : f ∈ fields UserCreate) by (simpl; left).
  split; [by exists f |]. split; [vm_compute; reflexivity |].
  destruct (proj1 (validate_accepts now UserCreate data)) as [u Hu];
    [vm_compute; reflexivity |].
  exists u. split; [exact Hu |].
  split; [unfold model_validate; simpl; by rewrite Hu |].
  split; [unfold init; simpl; by rewrite Hu |].
  destruct (UserCreate_accepted_email now data u Hu) as (s & Hs & _ & Ha).
  rewrite Ha. rewrite <- Hs. vm_compute. reflexivity.
Qed.

(** ** C9: the password of a [UserCreate] payload *)

(** C9.  A [UserCreate] payload is accepted only if its [password] is a
    string of at least 8 and at most 100 characters; a payload whose
    password is shorter or longer is rejected with a [ValidationError]
    that names the [password] field; the persisted [User] keeps only
    [password_hash], which has no minimum length (any string of at most
    255 characters satisfies its constraints). *)
Theorem UserCreate_password_length (now : datetime) (data : gmap string value) :
  (forall u, validate UserCreate now data = inr u ->
     exists s, data !! "password" = Some (VStr s) /\
               (8 <= length s <= 100)%nat)
  /\ (forall s, data !! "password" = Some (VStr s) ->
        (length s < 8 \/ 100 < length s)%nat ->
        exists errs k, validate UserCreate now data = inl errs /\
                       ("password", k) ∈ errs)
  /\ (forall f, f ∈ fields User -> fname f = "password_hash" ->
        get_min_length f = None /\
        forall s, (length s <= 255)%nat -> check f (VStr s) = None).
Proof.
  set (f := Field "password" TStr [Kw.min_length 8; Kw.max_length 100]).
  assert (Hf : f ∈ fields UserCreate) by (simpl; right; left).
  split; [| split].
  - intros u Hu. destruct (validate_inr now _ _ _ f Hu Hf) as (v & Hv & _).
    apply validate_str_field_inr in Hv as (s & Hs & -> & Hc); [| done].
    exists s. split; [done |]. rewrite check_password in Hc.
    destruct (Nat.ltb_spec (length s) 8); [discriminate |].
    destruct (Nat.ltb_spec 100 (length s)); [discriminate |]. lia.
  - intros s Hs Hlen.
    assert (He : exists e, validate_field now f data = inl e).
    { unfold validate_field, validate_value. simpl. rewrite Hs. simpl.
      change (check_str _ s) with (check_str f s). unfold f. rewrite check_password.
      destruct (Nat.ltb_spec (length s) 8); [eauto |].
      destruct (Nat.ltb_spec 100 (length s)); [eauto | lia]. }
    destruct He as [e He].
    destruct (validate_inl now UserCreate data f e Hf He) as (errs & Hv & Hin).
    eauto.
  - intros g Hg Hname. simpl in Hg.
    repeat (apply elem_of_cons in Hg as [-> | Hg]; [try discriminate Hname |]);
      [| by apply elem_of_nil in Hg].
    split; [done |]. intros s Hlen. simpl.
    unfold check_str, get_min_length, get_max_length. simpl.
    destruct (Nat.ltb_spec 255 (length s)); [lia | done].
Qed.

(** C9 on a payload whose password has seven characters. *)
Lemma UserCreate_password_length_witness :
  exists errs k,
    validate UserCreate (Datetime 2024 1 1 0 0 0 0)
      (list_to_map [("email", VStr (py "ana@og.digital"));
                    ("password", VStr (py "1234567"));
                    ("name", VStr (py "Ana"))]) = inl errs /\
    ("password", k) ∈ errs.
Proof.
  eapply (UserCreate_password_length (Datetime 2024 1 1 0 0 0 0)).
  - vm_compute. reflexivity.
  - simpl. lia.
Defined.

(** ** C10: [ExpertUpdate.email] has no pattern *)

(** C10.  [ExpertUpdate.email] carries no pattern, whereas
    [ExpertCreate.email] and [UserCreate.email] declare one: every string
    of at most 255 characters is accepted for it, and there is such a
    string that does not match the e-mail pattern and is accepted by
    [ExpertUpdate], as the value of [email] and with [email] as the one
    field the patch sets. *)
Theorem ExpertUpdate_email_unchecked (now : datetime) :
  (forall f, f ∈ fields ExpertUpdate -> fname f = "email" ->
     get_regex f = None /\
     forall s data, data !! "email" = Some (VStr s) -> (length s <= 255)%nat ->
                    validate_field now f data = inr (VStr s))
  /\ (forall M f, M = ExpertCreate \/ M = UserCreate ->
        f ∈ fields M -> fname f = "email" -> get_regex f = Some EMAIL_REGEX)
  /\ exists s,
       (length s <= 255)%nat /\
       Re.fullmatch EMAIL_REGEX s = false /\
       (exists u, validate ExpertUpdate now {["email" := VStr s]} = inr u /\
                  attrs u !! "email" = Some (VStr s) /\
                  fields_set u = ["email"]).
Proof.
  assert (Hany : forall f, f ∈ fields ExpertUpdate -> fname f = "email" ->
     get_regex f = None /\
     forall s data, data !! "email" = Some (VStr s) -> (length s <= 255)%nat ->
                    validate_field now f data = inr (VStr s)).
  { intros g Hg Hname. simpl in Hg.
    repeat (apply elem_of_cons in Hg as [-> | Hg]; [try discriminate Hname |]);
      [| by apply elem_of_nil in Hg].
    split; [done |]. intros s data Hs Hlen.
    by apply validate_optional_str_field. }
  split; [exact Hany |]. split.
  { intros M g [-> | ->] Hg Hname; simpl in Hg;
      repeat (apply elem_of_cons in Hg as [-> | Hg]; [try discriminate Hname |]);
      first [by apply elem_of_nil in Hg | reflexivity]. }
  exists (py "not-an-email").
  split; [simpl; lia |]. split; [vm_compute; reflexivity |].
  destruct (proj1 (validate_accepts now ExpertUpdate {["email" := VStr (py "not-an-email")]}))
    as [u Hu]; [vm_compute; reflexivity |].
  exists u. split; [done |]. split.
  - set (g := Field "email" (Optional TStr) [None_; Kw.max_length 255]).
    assert (Hg : g ∈ fields ExpertUpdate) by (simpl; do 2 right; left).
    destruct (validate_inr now _ _ _ g Hu Hg) as (v & Hv & Ha).
    specialize (Ha NoDup_ExpertUpdate). change (fname g) with "email" in Ha.
    rewrite Ha. f_equal. destruct (Hany g Hg eq_refl) as [_ H].
    rewrite (H (py "not-an-email")) in Hv;
      [by injection Hv | by rewrite lookup_singleton_eq | simpl; lia].
  - rewrite (validate_fields_set now _ _ _ Hu). vm_compute. reflexivity.
Qed.

(** C10 on the patch that sets [email] to [not-an-email]. *)
Lemma ExpertUpdate_email_unchecked_witness :
  get_regex (Field "email" (Optional TStr) [None_; Kw.max_length 255]) = None /\
  validate_field (Datetime 2024 1 1 0 0 0 0)
    (Field "email" (Optional TStr) [None_; Kw.max_length 255])
    {["email" := VStr (py "not-an-email")]} = inr (VStr (py "not-an-email")).
Proof.
  destruct (ExpertUpdate_email_unchecked (Datetime 2024 1 1 0 0 0 0)) as (H & _).
  destruct (H (Field "email" (Optional TStr) [None_; Kw.max_length 255])) as [Hre Hv].
  - simpl. do 2 right. left.
  - reflexivity.
  - split; [exact Hre |]. apply Hv.
    + by rewrite lookup_singleton_eq.
    + simpl. lia.
Defined.

(** An accepted payload, and the validated value of one of its fields. *)
Lemma validate_accepts_attr now M data f v :
  accepts M now data = true -> NoDup (field_names M) -> f ∈ fields M ->
  validate_field now f data = inr v ->
  exists u, validate M now data = inr u /\ attrs u !! fname f = Some v.
Proof.
  intros [u Hu]%validate_accepts Hnd Hf Hv. exists u. split; [done |].
  destruct (validate_inr now _ _ _ f Hu Hf) as (v' & Hv' & Ha).
  rewrite Ha by done. congruence.
Qed.

(** ** C7: no range check on [revenue_split_percentage] *)

(** C7.  Validation of [ExpertCreate] and of [ExpertUpdate] performs no
    range check on [revenue_split_percentage]: a negative value (-5.00)
    and a value above 100 (150.00), both within 5 digits and 2 decimal
    places, are accepted by both schemas and kept as they are. *)
Theorem revenue_split_percentage_no_range_check (now : datetime) :
  exists lo hi : Decimal,
    Decimal_leb (Dec 0 0) lo = false /\
    Decimal_leb hi (Dec 100 0) = false /\
    (forall d, d = lo \/ d = hi ->
       (exists u,
          validate ExpertCreate now
            (list_to_map [("business_name", VStr (py "OG Digital"));
                          ("expert_name", VStr (py "Ana"));
                          ("email", VStr (py "ana@og.digital"));
                          ("revenue_split_percentage", VDecimal d)]) = inr u /\
          attrs u !! "revenue_split_percentage" = Some (VDecimal d)) /\
       (exists u,
          validate ExpertUpdate now {["revenue_split_percentage" := VDecimal d]} = inr u /\
          attrs u !! "revenue_split_percentage" = Some (VDecimal d))).
Proof.
  exists (Dec (-500) (-2)), (Dec 15000 (-2)).
  split; [vm_compute; reflexivity |]. split; [vm_compute; reflexivity |].
  intros d Hd. split.
  - apply (validate_accepts_attr now ExpertCreate _
             (Field "revenue_split_percentage" TDecimal
                [Kw.default (VDecimal (Dec 500 (-1))); Kw.max_digits 5;
                 Kw.decimal_places 2])).
    + destruct Hd as [-> | ->]; vm_compute; reflexivity.
    + apply NoDup_ExpertCreate.
    + simpl. by repeat constructor.
    + destruct Hd as [-> | ->]; vm_compute; reflexivity.
  - apply (validate_accepts_attr now ExpertUpdate _
             (Field "revenue_split_percentage" (Optional TDecimal)
                [None_; Kw.max_digits 5; Kw.decimal_places 2])).
    + destruct Hd as [-> | ->]; vm_compute; reflexivity.
    + apply NoDup_ExpertUpdate.
    + simpl. by repeat constructor.
    + destruct Hd as [-> | ->]; vm_compute; reflexivity.
Qed.

(** C7 at 150.00. *)
Lemma revenue_split_percentage_no_range_check_witness :
  exists d u,
    Decimal_leb d (Dec 100 0) = false /\
    validate ExpertUpdate (Datetime 2024 1 1 0 0 0 0)
      {["revenue_split_percentage" := VDecimal d]} = inr u.
Proof.
  destruct (revenue_split_percentage_no_range_check (Datetime 2024 1 1 0 0 0 0))
    as (lo & hi & _ & Hhi & H).
  destruct (H hi (or_intror eq_refl)) as (_ & u & Hu & _).
  by exists hi, u.
Defined.

(** ** C8: the transfer schemas have no server-managed field *)

(** C8.  None of [UserCreate], [UserUpdate], [ExpertCreate],
    [ExpertUpdate], [SaleCreate], [OperationalCostCreate] and
    [OperationalCostUpdate] declares a field named [id], [created_at],
    [updated_at], [og_share], [expert_share] or [net_profit]; and an
    instance validated against one of them has no such attribute, whatever
    the payload supplied. *)
Theorem transfer_schemas_omit_server_fields :
  forall M, M ∈ transfer_schemas ->
  forall n, n ∈ server_managed ->
    (n ∉ field_names M) /\
    forall now data u, validate M now data = inr u -> attrs u !! n = None.
Proof.
  assert (H : forall M, M ∈ transfer_schemas -> forall n, n ∈ server_managed ->
                n ∉ field_names M).
  { intros M HM n Hn. revert n Hn. apply Forall_forall.
    revert M HM. apply Forall_forall.
    by apply (bool_decide_unpack _); vm_compute. }
  intros M HM n Hn. split; [by apply H |].
  intros now data u Hu. apply eq_None_not_Some. intros Hsome.
  apply (H M HM n Hn). by apply (validate_attrs_declared now M data u).
Qed.

(** C8 on a [UserCreate] payload that tries to set [id]. *)
Lemma transfer_schemas_omit_server_fields_witness :
  ("id" ∉ field_names UserCreate) /\
  forall u,
    validate UserCreate (Datetime 2024 1 1 0 0 0 0)
      (list_to_map [("id", VInt 7); ("email", VStr (py "ana@og.digital"));
                    ("password", VStr (py "s3cret-pass")); ("name", VStr (py "Ana"))])
    = inr u -> attrs u !! "id" = None.
Proof.
  destruct (transfer_schemas_omit_server_fields UserCreate) with (n := "id")
    as [H1 H2].
  - unfold transfer_schemas. left.
  - unfold server_managed. left.
  - split; [exact H1 |]. intros u. apply H2.
Defined.

(** ** Digit counts and magnitude *)

Lemma of_lu_bound (u : Corelib.Init.Decimal.uint) :
  (DecimalPos.Unsigned.of_lu u < 10 ^ N.of_nat (Corelib.Init.Decimal.nb_digits u))%N.
Proof.
  induction u; cbn [DecimalPos.Unsigned.of_lu Corelib.Init.Decimal.nb_digits];
    [simpl; lia | rewrite Nat2N.inj_succ, N.pow_succ_r'; lia ..].
Qed.

(** A coefficient of [k] digits is below [10 ^ k]. *)
Lemma ndigits_bound (z : Z) : Z.abs z < 10 ^ Z.of_nat (ndigits z).
Proof.
  unfold ndigits. set (n := Z.abs_N z).
  assert (Hn : (n < 10 ^ N.of_nat (Corelib.Init.Decimal.nb_digits (N.to_uint n)))%N).
  { rewrite <- (DecimalN.Unsigned.of_to n) at 1. unfold N.of_uint.
    rewrite DecimalPos.Unsigned.of_uint_alt, <- DecimalFacts.nb_digits_rev.
    apply of_lu_bound. }
  rewrite <- N2Z.inj_abs_N. fold n. apply N2Z.inj_lt in Hn.
  rewrite N2Z.inj_pow, nat_N_Z in Hn. exact Hn.
Qed.

Lemma strip_zeros_value fuel c e :
  e <= snd (strip_zeros fuel c e) /\
  c = fst (strip_zeros fuel c e) * 10 ^ (snd (strip_zeros fuel c e) - e).
Proof.
  revert c e. induction fuel as [|fuel IH]; intros c e; simpl.
  - rewrite Z.sub_diag. simpl. lia.
  - destruct (Z.eqb_spec (c mod 10) 0) as [Hm | Hm]; simpl.
    + destruct (IH (c / 10) (e + 1)) as [He Hc].
      set (r := strip_zeros fuel (c / 10) (e + 1)) in *. split; [lia |].
      replace (snd r - e) with (Z.succ (snd r - (e + 1))) by lia.
      rewrite Z.pow_succ_r by lia.
      pose proof (Z_div_mod_eq_full c 10) as Hd. rewrite Hm in Hd.
      rewrite Hd at 1. rewrite Hc at 1. lia.
    + rewrite Z.sub_diag. simpl. lia.
Qed.

(** Within the context precision, [normalize] keeps the value: it is
    zero, or the coefficient with some trailing zeros moved into the
    exponent. *)
Lemma normalize_value d :
  (ndigits (coef d) <= prec)%nat ->
  (coef d = 0 /\ normalize d = Dec 0 0) \/
  (exp d <= exp (normalize d) /\
   coef d = coef (normalize d) * 10 ^ (exp (normalize d) - exp d)).
Proof.
  intros Hp. unfold normalize, fix_.
  destruct (Nat.leb_spec (ndigits (coef d)) prec) as [_ | ?]; [| lia].
  destruct (Z.eqb_spec (coef d) 0) as [H0 | H0]; [by left | right].
  pose proof (strip_zeros_value (ndigits (coef d)) (coef d) (exp d)) as H.
  destruct (strip_zeros (ndigits (coef d)) (coef d) (exp d)) as [c e]. exact H.
Qed.

(** A [Decimal] within the context precision that passes
    [max_digits=n, decimal_places=p] is a fixed-point number: an integer
    below [10 ^ n] in magnitude, counted in units of [10 ^ -p]. *)
Lemma check_decimal_fixed_point f n p d :
  get_max_digits f = Some n -> get_decimal_places f = Some p -> (p <= n)%nat ->
  (ndigits (coef d) <= prec)%nat ->
  check_decimal f d = None ->
  exists c, Z.abs c < 10 ^ Z.of_nat n /\
            Decimal_eqb d (Dec c (- Z.of_nat p)) = true.
Proof.
  intros Hn Hp Hpn Hprec. unfold check_decimal. rewrite Hn, Hp.
  pose proof (ndigits_bound (coef d)) as Hc.
  unfold extract_decimal_digits_info.
  set (L := ndigits (coef d)) in *.
  set (nd := normalize d).
  destruct (if 0 <=? exp nd then _ else _) as [ndec ndig] eqn:Hnorm.
  destruct (if 0 <=? exp d then _ else _) as [dec dig] eqn:Hw.
  intros Hck.
  assert (Hplaces : (dec <= p \/ ndec <= p)%nat).
  { destruct (Nat.ltb_spec p dec), (Nat.ltb_spec p ndec); simpl in Hck;
      first [lia | by destruct (_ && _) in Hck]. }
  assert (Hwhole : (dig - dec <= n - p)%nat).
  { destruct ((n <? dig)%nat && (n <? ndig)%nat); [done |]. simpl in Hck.
    destruct ((p <? dec)%nat && (p <? ndec)%nat); [done |].
    destruct (Nat.ltb_spec (n - p) (dig - dec)); [done | lia]. }
  clear Hck.
  assert (HL : Z.of_nat L + exp d <= Z.of_nat n - Z.of_nat p).
  { destruct (Z.leb_spec 0 (exp d)); injection Hw as <- <-; lia. }
  destruct (normalize_value d Hprec) as [[H0 _] | [He Hv]].
  - exists 0. split; [apply Z.pow_pos_nonneg; lia |].
    unfold Decimal_eqb, rescale. cbn [coef exp]. rewrite H0. apply Z.eqb_eq. lia.
  - fold nd in He, Hv.
    assert (Hp' : - Z.of_nat p <= exp nd).
    { destruct (Z.leb_spec 0 (exp d)), (Z.leb_spec 0 (exp nd));
        injection Hw as <- <-; injection Hnorm as <- <-; lia. }
    exists (coef nd * 10 ^ (exp nd + Z.of_nat p)). split.
    + assert (Ha : 0 < 10 ^ (exp nd - exp d)) by (apply Z.pow_pos_nonneg; lia).
      apply (Z.mul_lt_mono_pos_r (10 ^ (exp nd - exp d))); [done |].
      rewrite Z.abs_mul, (Z.abs_eq (10 ^ _))
        by (apply Z.pow_nonneg; lia).
      rewrite <- Z.mul_assoc, (Z.mul_comm (10 ^ (exp nd + Z.of_nat p))), Z.mul_assoc.
      rewrite Hv, Z.abs_mul, (Z.abs_eq (10 ^ (exp nd - exp d))) in Hc
        by (apply Z.pow_nonneg; lia).
      apply Z.lt_le_trans with (10 ^ Z.of_nat L * 10 ^ (exp nd + Z.of_nat p)).
      * apply Z.mul_lt_mono_pos_r; [apply Z.pow_pos_nonneg; lia | done].
      * rewrite <- !Z.pow_add_r by lia. apply Z.pow_le_mono_r; lia.
    + unfold Decimal_eqb, rescale. cbn [coef exp]. apply Z.eqb_eq.
      set (m := Z.min (exp d) (- Z.of_nat p)).
      rewrite Hv at 1. rewrite <- !Z.mul_assoc, <- !Z.pow_add_r by lia.
      f_equal. f_equal. lia.
Qed.

Lemma coerce_TDecimal v v' :
  coerce TDecimal v = Some v' -> exists d, v' = VDecimal d.
Proof.
  destruct v; simpl; try discriminate.
  - destruct (Decimal_of_str s); simpl; [| discriminate]. intros [= <-]. eauto.
  - intros [= <-]. eauto.
  - intros [= <-]. eauto.
Qed.

(** ** C6: [revenue_split_percentage] is fixed-point, default 50.00 *)



(** ** C3: unique e-mail and subdomain *)

Lemma taken_elem c v v' (existing : list row) (r : row) :
  r ∈ existing -> r !! c = Some v' -> sql_eqb v v' = true ->
  taken c v existing = true.
Proof.
  intros Hin Hr Heq. apply existsb_exists. exists r. split.
  - by apply list_elem_of_In.
  - by rewrite Hr.
Qed.

Lemma persist_conflict M (db : Database) (r : row) c :
  conflict M (rows db M) r = Some c ->
  persist M db r = (db, inl (UniquenessConflict c)).
Proof. unfold persist. by intros ->. Qed.

(** C3.  In any state in which a [User] row with a given e-mail exists,
    storing a second [User] row with that e-mail fails with
    [UniquenessConflict] and leaves the state as it was, and so does
    creating a user from a valid [UserCreate] payload with that e-mail;
    likewise for a second [Expert] row with the subdomain (not [None]) of
    an existing one. *)
Theorem email_and_subdomain_unique (db : Database) (existing new : row) :
  (forall e, existing ∈ rows db User ->
     existing !! "email" = Some (VStr e) ->
     (new !! "email" = Some (VStr e) ->
      persist User db new = (db, inl (UniquenessConflict "email")))
     /\ (forall hash now data u,
           validate UserCreate now data = inr u ->
           data !! "email" = Some (VStr e) ->
           create_user hash now db data = (db, inl (UniquenessConflict "email"))))
  /\ (forall d, existing ∈ rows db Expert ->
        existing !! "subdomain" = Some (VStr d) ->
        new !! "subdomain" = Some (VStr d) ->
        persist Expert db new = (db, inl (UniquenessConflict "subdomain"))).
Proof.
  assert (Huser : forall e r, existing ∈ rows db User ->
            existing !! "email" = Some (VStr e) -> r !! "email" = Some (VStr e) ->
            persist User db r = (db, inl (UniquenessConflict "email"))).
  { intros e r Hin He Hr. apply persist_conflict.
    unfold conflict. change (unique_columns User) with ["email"]. simpl.
    rewrite Hr, (taken_elem "email" (VStr e) (VStr e) _ existing); try done.
    simpl. by apply bool_decide_eq_true. }
  split.
  - intros e Hin He. split; [by apply Huser |].
    intros hash now data u Hu Hd. unfold create_user. rewrite Hu.
    apply (Huser e); [done .. |]. unfold construct. cbn [attrs].
    apply construct_fields_supplied; [| simpl; by repeat constructor].
    rewrite lookup_insert_ne by done. rewrite lookup_delete_ne by done.
    destruct (UserCreate_accepted_email now data u Hu) as (s & Hs & _ & Ha).
    congruence.
  - intros d Hin He Hr. apply persist_conflict.
    unfold conflict. change (unique_columns Expert) with ["subdomain"]. simpl.
    rewrite Hr, (taken_elem "subdomain" (VStr d) (VStr d) _ existing); try done.
    simpl. by apply bool_decide_eq_true.
Qed.

(** C3 on a database holding one user and one expert. *)
Lemma email_and_subdomain_unique_witness :
  let ana : row := list_to_map [("id", VInt 1); ("email", VStr (py "ana@og.digital"))] in
  let studio : row := list_to_map [("id", VInt 1); ("subdomain", VStr (py "studio"))] in
  let db : Database := list_to_map [("users", [ana]); ("experts", [studio])] in
  persist User db {["email" := VStr (py "ana@og.digital")]}
    = (db, inl (UniquenessConflict "email")) /\
  persist Expert db {["subdomain" := VStr (py "studio")]}
    = (db, inl (UniquenessConflict "subdomain")).
Proof.
  intros ana studio db. split.
  - apply (email_and_subdomain_unique db ana _) with (e := py "ana@og.digital").
    + unfold rows. change (table_name User) with "users". unfold db. simpl.
      rewrite lookup_insert_eq. simpl. left.
    + unfold ana. simpl. rewrite lookup_insert_ne by done. by rewrite lookup_insert_eq.
    + by rewrite lookup_singleton_eq.
  - apply (email_and_subdomain_unique db studio _) with (d := py "studio").
    + unfold rows. change (table_name Expert) with "experts". unfold db. simpl.
      rewrite lookup_insert_ne by done. rewrite lookup_insert_eq. simpl. left.
    + unfold studio. simpl. rewrite lookup_insert_ne by done. by rewrite lookup_insert_eq.
    + by rewrite lookup_singleton_eq.
Defined.

(** ** C4: a patch that sets only [amount] *)

(** Fields the caller did not supply are left as they are. *)
Lemma apply_update_frame patch (r : row) n :
  n ∉ fields_set patch -> apply_update patch r !! n = r !! n.
Proof.
  unfold apply_update. induction (fields_set patch) as [|m l IH]; simpl; [done |].
  intros Hn. apply not_elem_of_cons in Hn as [Hne Hn].
  destruct (attrs patch !! m); [rewrite lookup_insert_ne by done |]; by apply IH.
Qed.

(** A supplied field takes the value the patch holds for it. *)
Lemma apply_update_set patch (r : row) n v :
  n ∈ fields_set patch -> attrs patch !! n = Some v ->
  apply_update patch r !! n = Some v.
Proof.
  unfold apply_update. intros Hin Hv.
  induction (fields_set patch) as [|m l IH]; simpl; [by apply elem_of_nil in Hin |].
  destruct (decide (m = n)) as [-> | Hne].
  - rewrite Hv. by rewrite lookup_insert_eq.
  - apply elem_of_cons in Hin as [? | Hin]; [congruence |].
    destruct (attrs patch !! m); [rewrite lookup_insert_ne by done |]; by apply IH.
Qed.

(** C4.  For every [OperationalCost] row and every accepted
    [OperationalCostUpdate] payload that supplies [amount] and no other
    field of the schema, applying the patch sets [amount] to the supplied
    value (as validated: a [Decimal] stays as it is) and leaves every
    other attribute of the row ([category], [description], [cost_date],
    [is_recurring], [recurring_frequency], [external_reference], [notes]
    and all the rest) unchanged. *)
Theorem OperationalCostUpdate_amount_only (now : datetime)
    (data : gmap string value) (patch : obj) (x : value) (r : row) :
  validate OperationalCostUpdate now data = inr patch ->
  data !! "amount" = Some x ->
  (forall n, n ∈ field_names OperationalCostUpdate -> n ≠ "amount" ->
             data !! n = None) ->
  (exists v, attrs patch !! "amount" = Some v /\
             apply_update patch r !! "amount" = Some v /\
             forall d, x = VDecimal d -> v = VDecimal d)
  /\ forall n, n ≠ "amount" -> apply_update patch r !! n = r !! n.
Proof.
  intros Hp Hx Hothers.
  assert (Hset : fields_set patch = ["amount"]).
  { rewrite (validate_fields_set now _ _ _ Hp). unfold supplied. simpl.
    rewrite Hx. rewrite !Hothers by (simpl; first [by repeat constructor | done]).
    reflexivity. }
  set (f := Field "amount" (Optional TDecimal)
              [None_; Kw.max_digits 12; Kw.decimal_places 2]).
  assert (Hf : f ∈ fields OperationalCostUpdate) by (simpl; by repeat constructor).
  destruct (validate_inr now _ _ _ f Hp Hf) as (v & Hv & Ha).
  specialize (Ha NoDup_OperationalCostUpdate). change (fname f) with "amount" in Ha.
  split.
  - exists v. split; [done |]. split.
    + apply apply_update_set; [rewrite Hset; left | done].
    + intros d ->. unfold validate_field in Hv. change (fname f) with "amount" in Hv.
      rewrite Hx in Hv. unfold validate_value in Hv. simpl in Hv.
      destruct (check_decimal f d); [discriminate | by injection Hv].
  - intros n Hn. apply apply_update_frame. rewrite Hset.
    by intros ->%list_elem_of_singleton.
Qed.

(** C4 on a patch that sets [amount] to 120.50. *)
Lemma OperationalCostUpdate_amount_only_witness :
  let now := Datetime 2024 1 1 0 0 0 0 in
  let data : gmap string value := {["amount" := VDecimal (Dec 12050 (-2))]} in
  let r : row := list_to_map [("description", VStr (py "ads")); ("amount", VDecimal (Dec 9900 (-2)))] in
  exists patch, validate OperationalCostUpdate now data = inr patch /\
    apply_update patch r !! "amount" = Some (VDecimal (Dec 12050 (-2))) /\
    apply_update patch r !! "description" = Some (VStr (py "ads")).
Proof.
  intros now data r.
  destruct (proj1 (validate_accepts now OperationalCostUpdate data)) as [patch Hp];
    [vm_compute; reflexivity |].
  exists patch. split; [exact Hp |].
  destruct (OperationalCostUpdate_amount_only now data patch
              (VDecimal (Dec 12050 (-2))) r Hp) as [(v & _ & Hv & Hd) Hframe].
  - unfold data. by rewrite lookup_singleton_eq.
  - intros n _ Hn. unfold data. by rewrite lookup_singleton_ne.
  - split.
    + rewrite Hv. f_equal. by apply Hd.
    + rewrite Hframe by done. unfold r. simpl. by rewrite lookup_insert_eq.
Defined.

(** ** C1: the accounting identities of a report *)

Lemma rescale_self c e : rescale (Dec c e) e = c.
Proof. unfold rescale. cbn [coef exp]. rewrite Z.sub_diag. simpl. lia. Qed.

Lemma Decimal_eqb_refl d : Decimal_eqb d d = true.
Proof. unfold Decimal_eqb. apply Z.eqb_refl. Qed.

(** [(n - e) + e == n]: subtraction and addition are exact. *)
Lemma Decimal_sub_add n e : Decimal_eqb (Decimal_add (Decimal_sub n e) e) n = true.
Proof.
  unfold Decimal_eqb, Decimal_add, Decimal_sub. cbn [coef exp].
  set (m := Z.min (exp n) (exp e)).
  replace (Z.min m (exp e)) with m by lia.
  rewrite rescale_self. cbn [exp].
  replace (Z.min m (exp n)) with m by lia.
  rewrite rescale_self. apply Z.eqb_eq. lia.
Qed.

Lemma persist_no_conflict M (db : Database) (r : row) :
  conflict M (rows db M) r = None -> exists db' r', persist M db r = (db', inr r').
Proof. unfold persist. intros ->. eauto. Qed.

Local Ltac lookup_kw :=
  cbn [list_to_map foldr uncurry fst snd curry];
  repeat first [rewrite lookup_insert_eq | rewrite lookup_insert_ne by done];
  try reflexivity.

Lemma generate_report_lookups now expert ps pe rt sales costs :
  let pct := decimal_attr expert "revenue_split_percentage" in
  let g := quantize (Decimal_sum (List.map (fun s => decimal_attr s "net_amount") sales)) (-2) in
  let c := quantize (Decimal_sum (List.map (fun c => decimal_attr c "amount") costs)) (-2) in
  let n := Decimal_sub g c in
  let e := quantize (Decimal_mul n (Decimal_mul pct (Dec 1 (-2)))) (-2) in
  let r := generate_report now expert ps pe rt sales costs in
  r !! "gross_revenue" = Some (VDecimal g) /\
  r !! "total_costs" = Some (VDecimal c) /\
  r !! "net_profit" = Some (VDecimal n) /\
  r !! "expert_share" = Some (VDecimal e) /\
  r !! "og_share" = Some (VDecimal (Decimal_sub n e)).
Proof.
  intros pct g c n e r. unfold r, generate_report, construct. cbn [attrs].
  repeat split;
    (apply construct_fields_supplied; [lookup_kw | simpl; by repeat constructor]).
Qed.

(** C1, as the source has it: the [FinancialReport] model does not relate
    its fields.  A report row with [net_profit = 0.00] and both shares at
    1.00 passes every declared constraint and is stored. *)
Lemma FinancialReport_shares_not_enforced :
  ~ (forall (now : datetime) (db db' : Database) (r r' : row),
       accepts FinancialReport now r = true ->
       persist FinancialReport db r = (db', inr r') ->
       shares_add_up r').
Proof.
  intros H.
  set (t := Datetime 2024 1 1 0 0 0 0).
  set (bad := list_to_map [
         ("expert_id", VInt 1); ("period_start", VDatetime t);
         ("period_end", VDatetime t); ("report_type", VStr (py "monthly"));
         ("gross_revenue", VDecimal (Dec 0 (-2)));
         ("total_costs", VDecimal (Dec 0 (-2)));
         ("net_profit", VDecimal (Dec 0 (-2)));
         ("og_share", VDecimal (Dec 100 (-2)));
         ("expert_share", VDecimal (Dec 100 (-2)))] : row).
  destruct (persist_no_conflict FinancialReport ∅ bad) as (db' & r' & Hp);
    [vm_compute; reflexivity |].
  assert (Hacc : accepts FinancialReport t bad = true) by (vm_compute; reflexivity).
  destruct (H t ∅ db' bad r' Hacc Hp) as (o & e & n & Ho & He & Hn & Heq).
  apply persist_inr in Hp as (_ & _ & Hsame).
  rewrite Hsame in Ho, He, Hn by done.
  vm_compute in Ho, He, Hn.
  injection Ho as <-. injection He as <-. injection Hn as <-.
  vm_compute in Heq. discriminate Heq.
Qed.

(** C1, amended.  The schema enforces neither identity; they hold for
    the reports the generator produces: for every expert and every list of
    sales and costs of a period, [og_share + expert_share = net_profit] and
    [net_profit = gross_revenue - total_costs].  For an expert with
    [revenue_split_percentage = 70.00], one sale of [net_amount = 900.00]
    and one cost of [amount = 100.00], the report has
    [gross_revenue = 900.00], [total_costs = 100.00],
    [net_profit = 800.00], [expert_share = 560.00] and
    [og_share = 240.00]. *)
Theorem generated_report_identities (now : datetime) (expert : row)
    (period_start period_end : datetime) (report_type : str) :
  (forall sales costs,
     let r := generate_report now expert period_start period_end report_type
                              sales costs in
     shares_add_up r /\ profit_is_revenue_less_costs r)
  /\ (forall sale cost,
        expert !! "revenue_split_percentage" = Some (VDecimal (Dec 7000 (-2))) ->
        sale !! "net_amount" = Some (VDecimal (Dec 90000 (-2))) ->
        cost !! "amount" = Some (VDecimal (Dec 10000 (-2))) ->
        let r := generate_report now expert period_start period_end report_type
                                 [sale] [cost] in
        r !! "gross_revenue" = Some (VDecimal (Dec 90000 (-2))) /\
        r !! "total_costs" = Some (VDecimal (Dec 10000 (-2))) /\
        r !! "net_profit" = Some (VDecimal (Dec 80000 (-2))) /\
        r !! "expert_share" = Some (VDecimal (Dec 56000 (-2))) /\
        r !! "og_share" = Some (VDecimal (Dec 24000 (-2)))).
Proof.
  split.
  - intros sales costs r.
    destruct (generate_report_lookups now expert period_start period_end
                report_type sales costs) as (Hg & Hc & Hn & He & Ho).
    split.
    + do 3 eexists. split; [exact Ho |]. split; [exact He |]. split; [exact Hn |].
      apply Decimal_sub_add.
    + do 3 eexists. split; [exact Hg |]. split; [exact Hc |]. split; [exact Hn |].
      apply Decimal_eqb_refl.
  - intros sale cost Hpct Hsale Hcost r.
    destruct (generate_report_lookups now expert period_start period_end
                report_type [sale] [cost]) as (Hg & Hc & Hn & He & Ho).
    fold r in Hg, Hc, Hn, He, Ho.
    rewrite Hg, Hc, Hn, He, Ho. unfold decimal_attr. simpl.
    rewrite Hpct, Hsale, Hcost. vm_compute. repeat split; reflexivity.
Qed.

(** C1 on the scenario of the specification. *)
Lemma generated_report_identities_witness :
  let t := Datetime 2024 1 1 0 0 0 0 in
  let expert : row :=
    list_to_map [("id", VInt 1); ("revenue_split_percentage", VDecimal (Dec 7000 (-2)))] in
  let sale : row :=
    list_to_map [("gross_amount", VDecimal (Dec 100000 (-2)));
                 ("net_amount", VDecimal (Dec 90000 (-2)))] in
  let cost : row := {["amount" := VDecimal (Dec 10000 (-2))]} in
  let r := generate_report t expert t t (py "monthly") [sale] [cost] in
  r !! "expert_share" = Some (VDecimal (Dec 56000 (-2))) /\
  r !! "og_share" = Some (VDecimal (Dec 24000 (-2))) /\
  shares_add_up r.
Proof.
  intros t expert sale cost r.
  destruct (generated_report_identities t expert t t (py "monthly")) as [Hid Hex].
  destruct (Hex sale cost) as (_ & _ & _ & He & Ho).
  - unfold expert. simpl. rewrite lookup_insert_ne by done. by rewrite lookup_insert_eq.
  - unfold sale. simpl. rewrite lookup_insert_ne by done. by rewrite lookup_insert_eq.
  - unfold cost. by rewrite lookup_singleton_eq.
  - split; [exact He |]. split; [exact Ho |]. apply (Hid [sale] [cost]).
Defined.

(** ** Decimals and timestamps survive their text form *)

Lemma codes_uint_codes u : codes_uint (uint_codes u) = Some u.
Proof. induction u; simpl; [done | by rewrite IHu ..]. Qed.

Lemma uint_codes_digits u : Forall is_digit (uint_codes u).
Proof. induction u; simpl; constructor; (done || (unfold is_digit; lia)). Qed.

Lemma uint_codes_nil u : uint_codes u = [] -> u = Corelib.Init.Decimal.Nil.
Proof. by destruct u. Qed.

Lemma digits_digits n : Forall is_digit (digits n).
Proof. apply uint_codes_digits. Qed.

Lemma digits_nonempty n : digits n ≠ [].
Proof.
  unfold digits. intros H%uint_codes_nil. destruct n as [|p]; [discriminate |].
  by apply (DecimalPos.Unsigned.to_uint_nonnil p).
Qed.

(** Leading zeros do not change the number read. *)
Lemma parse_nat_zeros k n :
  parse_nat (zeros k ++ digits n) = Some n.
Proof.
  assert (H : exists u, codes_uint (zeros k ++ digits n) = Some u /\ N.of_uint u = n).
  { induction k as [|k (u & Hu & Hn)]; simpl.
    - exists (N.to_uint n). split; [apply codes_uint_codes | apply DecimalN.Unsigned.of_to].
    - exists (Corelib.Init.Decimal.D0 u). unfold zeros in Hu. rewrite Hu. done. }
  destruct H as (u & Hu & Hn). unfold parse_nat.
  destruct (zeros k ++ digits n) eqn:E.
  - apply app_eq_nil in E as [_ E]. by apply digits_nonempty in E.
  - rewrite Hu. simpl. by rewrite Hn.
Qed.

Lemma parse_nat_digits n : parse_nat (digits n) = Some n.
Proof. apply (parse_nat_zeros 0). Qed.

Lemma partition_absent c s : c ∉ s -> partition c s = (s, None).
Proof.
  induction s as [|x s IH]; simpl; [done |].
  intros [Hx Hs]%not_elem_of_cons. destruct (N.eqb_spec x c); [congruence |].
  by rewrite IH.
Qed.

Lemma partition_first c a b : c ∉ a -> partition c (a ++ c :: b) = (a, Some b).
Proof.
  induction a as [|x a IH]; simpl.
  - intros _. by rewrite N.eqb_refl.
  - intros [Hx Hs]%not_elem_of_cons. destruct (N.eqb_spec x c); [congruence |].
    by rewrite IH.
Qed.

Lemma digit_not c s : Forall is_digit s -> ~ is_digit c -> c ∉ s.
Proof.
  intros Hs Hc Hin. apply Hc. rewrite Forall_forall in Hs. by apply Hs.
Qed.

Lemma zeros_digits k : Forall is_digit (zeros k).
Proof. apply Forall_replicate. unfold is_digit. lia. Qed.

Lemma parse_int_exponent e :
  e ≠ 0 ->
  parse_int ((if e <? 0 then 45%N else 43%N) :: digits (Z.abs_N e)) = Some e.
Proof.
  intros He. destruct (Z.ltb_spec e 0); simpl; rewrite parse_nat_digits; simpl; f_equal; lia.
Qed.

Lemma parse_unsigned_parts ip fd (frac : bool) ee :
  Forall is_digit ip -> Forall is_digit fd ->
  parse_unsigned (ip ++ (if frac then 46%N :: fd else []) ++ exponent_str ee) =
  match parse_nat (ip ++ (if frac then fd else [])) with
  | Some c => Some (c, ee - Z.of_nat (length (if frac then fd else [])))
  | None => None
  end.
Proof.
  intros Hip Hfd. unfold parse_unsigned.
  set (mant := ip ++ (if frac then 46%N :: fd else [])).
  assert (Hm : 69%N ∉ mant).
  { unfold mant. intros [H | H]%elem_of_app.
    - revert H. apply digit_not; [done | unfold is_digit; lia].
    - destruct frac; [| by apply elem_of_nil in H].
      apply elem_of_cons in H as [H | H]; [discriminate |].
      revert H. apply digit_not; [done | unfold is_digit; lia]. }
  assert (Hdot : partition 46%N mant = (ip, if frac then Some fd else None)).
  { unfold mant. destruct frac.
    - apply partition_first, digit_not; [done | unfold is_digit; lia].
    - rewrite app_nil_r. apply partition_absent, digit_not; [done | unfold is_digit; lia]. }
  rewrite app_assoc. fold mant. unfold exponent_str.
  destruct (Z.eqb_spec ee 0) as [-> | Hee].
  - rewrite app_nil_r, (partition_absent _ _ Hm), Hdot.
    destruct frac; simpl; by destruct (parse_nat _).
  - rewrite (partition_first _ _ _ Hm), Hdot, (parse_int_exponent _ Hee).
    destruct frac; simpl; by destruct (parse_nat _).
Qed.

Lemma take_digits k s : Forall is_digit s -> Forall is_digit (take k s).
Proof. apply Forall_take. Qed.

Lemma drop_digits k s : Forall is_digit s -> Forall is_digit (drop k s).
Proof. apply Forall_drop. Qed.

(** Reading the text of an unsigned decimal gives back its coefficient
    and exponent. *)
Lemma parse_unsigned_str n e : parse_unsigned (unsigned_str n e) = Some (n, e).
Proof.
  unfold unsigned_str.
  pose proof (digits_digits n) as Hds. pose proof (digits_nonempty n) as Hne.
  set (ds := digits n) in *. set (len := Z.of_nat (length ds)).
  assert (Hlen : 1 <= len) by (unfold len; destruct ds; [done | simpl; lia]).
  set (dotplace := if (e <=? 0) && (-6 <? e + len) then e + len else 1).
  assert (Hdp : dotplace = e + len /\ e <= 0 \/ dotplace = 1).
  { unfold dotplace. destruct (Z.leb_spec e 0); simpl; [| by right].
    destruct (-6 <? e + len); [left | right]; done. }
  destruct (Z.leb_spec dotplace 0) as [H0 | H0].
  - (* 0.000ddd *)
    change (46%N :: zeros (Z.to_nat (- dotplace)) ++ ds)
      with ((if true then 46%N :: (zeros (Z.to_nat (- dotplace)) ++ ds) else [])).
    rewrite parse_unsigned_parts;
      [| by repeat constructor; unfold is_digit; lia
       | apply Forall_app; split; [apply zeros_digits | done]].
    change ([48%N] ++ zeros (Z.to_nat (- dotplace)) ++ ds)
      with (zeros (S (Z.to_nat (- dotplace))) ++ digits n).
    rewrite parse_nat_zeros. f_equal. f_equal.
    rewrite length_app. unfold zeros. rewrite length_replicate. fold len.
    destruct Hdp as [[-> _] | ->]; lia.
  - destruct (Z.leb_spec len dotplace) as [H1 | H1].
    + (* ddd *)
      assert (Hz : Z.to_nat (dotplace - len) = 0%nat) by (destruct Hdp as [[-> ?] | ->]; lia).
      rewrite Hz. change (zeros 0) with (@nil N). rewrite app_nil_r.
      change (ds ++ [] ++ ?x) with (ds ++ (if false then 46%N :: [] else []) ++ x).
      rewrite parse_unsigned_parts; [| done | constructor].
      rewrite app_nil_r. unfold ds. rewrite parse_nat_digits. simpl. f_equal. f_equal.
      fold ds. fold len. destruct Hdp as [[-> ?] | ->]; lia.
    + (* dd.ddd *)
      change (46%N :: drop (Z.to_nat dotplace) ds)
        with ((if true then 46%N :: drop (Z.to_nat dotplace) ds else [])).
      rewrite parse_unsigned_parts; [| by apply take_digits | by apply drop_digits].
      rewrite take_drop. unfold ds. rewrite parse_nat_digits. f_equal. f_equal.
      fold ds. rewrite length_drop. fold len. unfold len in *.
      destruct Hdp as [[-> ?] | ->]; lia.
Qed.

Lemma unsigned_str_head n e :
  exists c s, unsigned_str n e = c :: s /\ is_digit c.
Proof.
  unfold unsigned_str.
  pose proof (digits_digits n) as Hds. pose proof (digits_nonempty n) as Hne.
  set (ds := digits n) in *. set (len := Z.of_nat (length ds)).
  set (dotplace := if (e <=? 0) && (-6 <? e + len) then e + len else 1).
  destruct (Z.leb_spec dotplace 0) as [H0 | H0].
  - eexists _, _. split; [reflexivity | unfold is_digit; lia].
  - destruct ds as [|c ds']; [done |]. apply Forall_cons in Hds as [Hc _].
    destruct (Z.leb_spec len dotplace).
    + eexists _, _. split; [reflexivity | done].
    + destruct (Z.to_nat dotplace) eqn:E; [lia |].
      eexists _, _. split; [reflexivity | done].
Qed.

(** [Decimal(str(d)) = d], coefficient and exponent alike. *)
Lemma Decimal_of_str_str d : Decimal_of_str (Decimal_str d) = Some d.
Proof.
  unfold Decimal_str, Decimal_of_str.
  destruct (Z.ltb_spec (coef d) 0) as [Hneg | Hpos]; simpl.
  - rewrite parse_unsigned_str. simpl. destruct d as [c e]. simpl in *. f_equal. f_equal. lia.
  - destruct (unsigned_str_head (Z.abs_N (coef d)) (exp d)) as (c & s & Hcs & Hc).
    pose proof (parse_unsigned_str (Z.abs_N (coef d)) (exp d)) as Hp.
    rewrite Hcs in *. unfold is_digit in Hc.
    assert (Hgen : (fun ce => Dec (Z.of_N (fst ce)) (snd ce)) <$> parse_unsigned (c :: s) = Some d).
    { rewrite Hp. simpl. destruct d as [c' e]. simpl in *. f_equal. f_equal. lia. }
    destruct c as [|p]; [lia |].
    do 6 (destruct p as [p | p |]; try lia; try exact Hgen).
Qed.

Lemma fixed_digits_length k n : length (fixed_digits k n) = k.
Proof.
  revert n. induction k as [|k IH]; intros n; simpl; [done |].
  rewrite length_app, IH. simpl. lia.
Qed.

Lemma parse_fixed_aux_app s1 s2 acc :
  parse_fixed_aux (s1 ++ s2) acc =
  match parse_fixed_aux s1 acc with
  | Some a => parse_fixed_aux s2 a
  | None => None
  end.
Proof.
  revert acc. induction s1 as [|c s1 IH]; intros acc; simpl; [done |].
  destruct ((48 <=? c)%N && (c <=? 57)%N); [apply IH | done].
Qed.

Lemma parse_fixed_aux_digits k n acc :
  (n < 10 ^ N.of_nat k)%N ->
  parse_fixed_aux (fixed_digits k n) acc = Some (acc * 10 ^ N.of_nat k + n)%N.
Proof.
  revert n acc. induction k as [|k IH]; intros n acc Hn.
  - simpl in *. f_equal. lia.
  - rewrite Nat2N.inj_succ, N.pow_succ_r' in *.
    change (fixed_digits (S k) n) with (fixed_digits k (n / 10) ++ [(48 + n mod 10)%N]).
    rewrite parse_fixed_aux_app, IH by (apply N.Div0.div_lt_upper_bound; exact Hn).
    change (parse_fixed_aux [?c] ?a)
      with (if (48 <=? c)%N && (c <=? 57)%N then Some (a * 10 + (c - 48))%N else None).
    assert (n mod 10 < 10)%N by (apply N.mod_lt; discriminate).
    assert (n = 10 * (n / 10) + n mod 10)%N by (apply N.div_mod; discriminate).
    set (r := (n mod 10)%N) in *. set (q := (n / 10)%N) in *.
    clearbody r q. clear IH Hn.
    destruct (N.leb_spec 48 (48 + r)); [| lia].
    destruct (N.leb_spec (48 + r) 57); [| lia]. simpl. f_equal. lia.
Qed.

Lemma parse_fixed_digits k n rest :
  (n < 10 ^ N.of_nat k)%N ->
  parse_fixed k (fixed_digits k n ++ rest) = Some (n, rest).
Proof.
  intros Hn. unfold parse_fixed.
  rewrite length_app, fixed_digits_length.
  destruct (Nat.ltb_spec (k + length rest) k); [lia |].
  rewrite take_app_length', drop_app_length' by (symmetry; apply fixed_digits_length).
  rewrite parse_fixed_aux_digits by done. simpl. done.
Qed.

Lemma days_in_month_le y m : days_in_month y m <= 31.
Proof.
  unfold days_in_month.
  repeat match goal with |- context [if ?b then _ else _] => destruct b end; lia.
Qed.

Lemma expect_here c s : expect c ([c] ++ s) = Some s.
Proof. simpl. by rewrite N.eqb_refl. Qed.

(** [datetime.fromisoformat(t.isoformat()) = t]. *)
Lemma fromisoformat_isoformat t :
  datetime_valid t = true -> fromisoformat (isoformat t) = Some t.
Proof.
  intros Hv. pose proof Hv as Hv'. unfold datetime_valid in Hv'.
  repeat (apply andb_true_iff in Hv' as [Hv' ?]).
  repeat match goal with
         | H : (_ <=? _) = true |- _ => apply Z.leb_le in H
         | H : (_ <? _) = true |- _ => apply Z.ltb_lt in H
         end.
  pose proof (days_in_month_le (year t) (month t)).
  unfold fromisoformat, isoformat.
  do 5 (rewrite parse_fixed_digits by (simpl; lia); cbn [mbind option_bind];
        rewrite expect_here; cbn [mbind option_bind]).
  rewrite parse_fixed_digits by (simpl; lia); cbn [mbind option_bind].
  assert (Ht : Datetime (Z.of_N (Z.to_N (year t))) (Z.of_N (Z.to_N (month t)))
                 (Z.of_N (Z.to_N (day t))) (Z.of_N (Z.to_N (hour t)))
                 (Z.of_N (Z.to_N (minute t))) (Z.of_N (Z.to_N (second t)))
                 (microsecond t) = t).
  { destruct t; simpl in *. f_equal; lia. }
  destruct (Z.eqb_spec (microsecond t) 0) as [Hus | Hus].
  - cbn [mbind option_bind]. change (Z.of_N 0) with 0. rewrite <- Hus, Ht, Hv. done.
  - change (46%N :: ?x) with ([46%N] ++ x).
    cbn [app]. rewrite <- (app_nil_r (fixed_digits 6 _)).
    change (expect 46 (46%N :: ?x)) with (expect 46 ([46%N] ++ x)).
    rewrite expect_here. cbn [mbind option_bind].
    rewrite parse_fixed_digits by (simpl; lia). cbn [mbind option_bind].
    rewrite (Z2N.id (microsecond t)) by lia. rewrite Ht, Hv. done.
Qed.

Lemma enum_of_value_member m :
  enum_of_value (class_of m) (py (member_value m)) = Some m.
Proof. destruct m as [[]|[]|[]|[]]; vm_compute; reflexivity. Qed.

(** ** Serialization, and validation of the serialized form *)

Lemma json_native_jsonable v : json_native v = true -> jsonable v = v.
Proof.
  revert v. fix IH 1. intros [ | | | | | | | items]; simpl; try done.
  intros H. f_equal. induction items as [|[k x] items IHl]; simpl in *; [done |].
  apply andb_true_iff in H as [Hx Hl]. by rewrite (IH x Hx), (IHl Hl).
Qed.

(** A value of the annotated type, written as JSON and read back against
    the annotation, is the value. *)
Lemma coerce_jsonable t v : typed t v = true -> coerce t (jsonable v) = Some v.
Proof.
  revert v. induction t as [ | | | | | k | | t IH | t IH]; intros v H.
  - by destruct v.
  - by destruct v.
  - by destruct v.
  - destruct v; try done. simpl. by rewrite Decimal_of_str_str.
  - destruct v; try done. simpl in *. by rewrite fromisoformat_isoformat.
  - destruct v; try done. simpl in *. apply bool_decide_eq_true in H as <-.
    by rewrite enum_of_value_member.
  - cbn [typed] in H. assert (Hj : json_native v = true) by (by destruct v).
    simpl. by rewrite (json_native_jsonable _ Hj).
  - destruct v as [ | | | | | | | items]; try done. cbn [typed] in H. simpl.
    assert (Hitems : coerce_items (coerce t)
                       (List.map (fun kv => (fst kv, jsonable (snd kv))) items)
                     = Some items).
    { induction items as [|[k x] items IHl]; simpl in *; [done |].
      apply andb_true_iff in H as [Hx Hl]. by rewrite (IH _ Hx), (IHl Hl). }
    by rewrite Hitems.
  - destruct v; try done; exact (IH _ H).
Qed.

Lemma validate_field_dump now f (r : row) v :
  r !! fname f = Some v -> typed (ftype f) v = true -> check f v = None ->
  validate_field now f (model_dump r) = inr v.
Proof.
  intros Hr Ht Hc. unfold validate_field, model_dump.
  rewrite lookup_fmap, Hr. simpl. unfold validate_value.
  by rewrite (coerce_jsonable _ _ Ht), Hc.
Qed.

(** Serializing an instance of a model and validating the result against
    the model gives the instance back. *)
Lemma model_roundtrip M now (r : row) :
  NoDup (field_names M) -> is_instance M r ->
  exists o, validate M now (model_dump r) = inr o /\ attrs o = r.
Proof.
  intros Hnd [Hdom Hall]. rewrite Forall_forall in Hall.
  assert (Hacc : accepts M now (model_dump r) = true).
  { apply forallb_forall. intros f Hf%list_elem_of_In.
    destruct (Hall f Hf) as (v & Hr & Ht & Hc).
    by rewrite (validate_field_dump now f r v). }
  apply validate_accepts in Hacc as [o Ho]. exists o. split; [done |].
  apply map_eq. intros n.
  destruct (decide (n ∈ field_names M)) as [Hin | Hout].
  - apply list_elem_of_fmap in Hin as (f & -> & Hf).
    destruct (Hall f Hf) as (v & Hr & Ht & Hc).
    destruct (validate_inr now _ _ _ f Ho Hf) as (v' & Hv' & Ha).
    rewrite (validate_field_dump now f r v) in Hv' by done.
    rewrite Ha, Hr by done. congruence.
  - transitivity (@None value).
    + apply eq_None_not_Some. intros H. apply Hout.
      by apply (validate_attrs_declared now M (model_dump r) o).
    + symmetry. apply eq_None_not_Some. intros H. by apply Hout, Hdom.
Qed.

(** ** C5: an [Expert] to serialize *)

(** The one relationship of the file whose join cannot be determined. *)
Lemma configure_mappers_registry :
  configure_mappers registry = Some (AmbiguousForeignKeysError "User.expert_business").
Proof. vm_compute. reflexivity. Qed.

Lemma init_table M now data :
  table M = true ->
  init M now data = inl (AmbiguousForeignKeysError "User.expert_business") /\
  model_validate M now data = inl (AmbiguousForeignKeysError "User.expert_business").
Proof.
  intros Ht. unfold init, model_validate. by rewrite Ht, configure_mappers_registry.
Qed.

(** C5.  There is no [Expert] to serialize.  [User.expert_business]
    relates [User] to [Expert] without naming the foreign key it goes
    through, and [Expert] has two foreign keys into [users], [owner_id]
    and [created_by_id] (the other relationships between the two classes
    name theirs).  The mapper configuration that runs when a table model
    is first used fails on it: the constructor of [Expert] and
    [Expert.model_validate] raise [AmbiguousForeignKeysError] whatever
    they are given, the expert of the specification included. *)
Theorem Expert_cannot_be_built (now : datetime) (data : gmap string value) :
  foreign_keys_into Expert User = ["Expert.owner_id"; "Expert.created_by_id"]
  /\ (exists r, r ∈ User_relationships /\ rname r = "expert_business" /\
                 target r = "Expert" /\ foreign_keys r = None)
  /\ join_condition User Expert (Relationship "expert_business" "Expert" "owner" None)
     = inl (AmbiguousForeignKeysError "User.expert_business")
  /\ init Expert now data = inl (AmbiguousForeignKeysError "User.expert_business")
  /\ model_validate Expert now data
     = inl (AmbiguousForeignKeysError "User.expert_business").
Proof.
  split; [vm_compute; reflexivity |]. split.
  { exists (Relationship "expert_business" "Expert" "owner" None).
    split; [left | done]. }
  split; [vm_compute; reflexivity |]. by apply init_table.
Qed.

(** * Further properties of the declarations *)

(** ** Enumerations are closed sets of distinct values *)

Lemma members_class k m : In m (members k) -> class_of m = k.
Proof. destruct k; simpl; intros H; repeat destruct H as [<- | H]; done. Qed.

(** X1.  A string denotes a member of an enumeration exactly when it is
    the value of that member: the values of a class are pairwise
    distinct, a member is found again from its value, and a field of the
    class accepts a string only if it is one of the values. *)
Theorem enum_of_value_iff (k : enum_class) (s : str) (m : enum_member) :
  (enum_of_value k s = Some m <-> class_of m = k /\ py (member_value m) = s)
  /\ (forall v, coerce (TEnum k) (VStr s) = Some v <->
                exists m', v = VEnum m' /\ class_of m' = k /\ py (member_value m') = s).
Proof.
  assert (H : forall m0, enum_of_value k s = Some m0 <->
                         class_of m0 = k /\ py (member_value m0) = s).
  { intros m0. split.
    - unfold enum_of_value. intros [Hin Hv]%find_some.
      split; [by apply members_class | by apply bool_decide_eq_true in Hv].
    - intros [<- <-]. apply enum_of_value_member. }
  split; [apply H |]. intros v. simpl. split.
  - destruct (enum_of_value k s) as [m0 |] eqn:E; simpl; [| discriminate].
    intros [= <-]. exists m0. split; [done |]. by apply H.
  - intros (m' & -> & Hm'). apply H in Hm'. by rewrite Hm'.
Qed.

(** ** Keys that are not fields *)

Lemma validate_fields_ext now fs data data' :
  (forall f, f ∈ fs -> validate_field now f data = validate_field now f data') ->
  validate_fields now fs data = validate_fields now fs data'.
Proof.
  induction fs as [|g fs IH]; intros H; simpl; [done |].
  rewrite IH by (intros f Hf; apply H; by right).
  rewrite (H g) by left. done.
Qed.

Lemma supplied_insert_other fs (data : gmap string value) k v :
  k ∉ List.map fname fs -> supplied fs (<[k := v]> data) = supplied fs data.
Proof.
  unfold supplied. induction (List.map fname fs) as [|n l IH]; simpl; [done |].
  intros [Hk Hl]%not_elem_of_cons. rewrite lookup_insert_ne by done.
  destruct (bool_decide (is_Some (data !! n))); [f_equal |]; by apply IH.
Qed.

(** X2.  A key of the payload that is not a declared field has no effect
    on validation: the result, errors or instance, is the same with and
    without it. *)
Theorem validate_ignores_extra_keys (M : Model) (now : datetime)
    (data : gmap string value) (k : string) (v : value) :
  k ∉ field_names M ->
  validate M now (<[k := v]> data) = validate M now data.
Proof.
  intros Hk. unfold validate.
  rewrite (validate_fields_ext now (fields M) (<[k := v]> data) data).
  - by rewrite supplied_insert_other.
  - intros f Hf. unfold validate_field. rewrite lookup_insert_ne; [done |].
    intros ->. apply Hk. apply list_elem_of_fmap. eauto.
Qed.

(** X2 on a [UserCreate] payload that carries an [id]. *)
Lemma validate_ignores_extra_keys_witness :
  let data : gmap string value :=
    list_to_map [("email", VStr (py "ana@og.digital"));
                 ("password", VStr (py "s3cret-pass")); ("name", VStr (py "Ana"))] in
  validate UserCreate (Datetime 2024 1 1 0 0 0 0) (<["id" := VInt 7]> data)
  = validate UserCreate (Datetime 2024 1 1 0 0 0 0) data.
Proof.
  intros data. apply validate_ignores_extra_keys.
  apply (bool_decide_unpack _). vm_compute. exact I.
Defined.

(** ** Which fields fail, and how they are reported *)

Lemma validate_fields_err_inv now fs data n e :
  (n, e) ∈ (validate_fields now fs data).1 ->
  exists f, f ∈ fs /\ fname f = n /\ validate_field now f data = inl e.
Proof.
  induction fs as [|g fs IH]; simpl; [by intros ?%elem_of_nil |].
  destruct (validate_fields now fs data) as [errs a].
  destruct (validate_field now g data) as [e' |] eqn:G; simpl in *.
  - intros [[= -> ->] | Hin]%elem_of_cons.
    + exists g. split; [left | done].
    + destruct (IH Hin) as (f & Hf & Hn & He). exists f. split; [by right | done].
  - intros Hin. destruct (IH Hin) as (f & Hf & Hn & He). exists f. split; [by right | done].
Qed.

Lemma validate_fields_err_sublist now fs data :
  sublist ((validate_fields now fs data).1.*1) (List.map fname fs).
Proof.
  induction fs as [|g fs IH]; simpl; [constructor |].
  destruct (validate_fields now fs data) as [errs a].
  destruct (validate_field now g data); simpl in *; by constructor.
Qed.

Lemma validate_inl_fields M now data errs :
  validate M now data = inl errs ->
  errs = (validate_fields now (fields M) data).1 /\ errs ≠ [].
Proof.
  unfold validate. destruct (validate_fields now (fields M) data) as [[|e l] a];
    [discriminate |]. by intros [= <-].
Qed.

(** ** Required and optional fields *)

Lemma is_required_default now f : is_required f = true <-> get_default now f = None.
Proof.
  unfold is_required, get_default. induction (kwargs f) as [|k l IH]; simpl; [done |].
  destruct k; simpl; try exact IH; split; discriminate.
Qed.

Lemma required_elem M n :
  n ∈ required M <-> exists f, f ∈ fields M /\ fname f = n /\ is_required f = true.
Proof.
  unfold required. rewrite list_elem_of_fmap. split.
  - intros (f & -> & Hf). apply list_elem_of_In, filter_In in Hf as [Hf Hr].
    exists f. split; [by apply list_elem_of_In | done].
  - intros (f & Hf & <- & Hr). exists f. split; [done |].
    apply list_elem_of_In, filter_In. split; [by apply list_elem_of_In | done].
Qed.

(** X3.  A payload that omits a required field is rejected, and the error
    names the field as missing.  The required fields of the Create
    schemas are: [email], [password], [name] for [UserCreate];
    [business_name], [expert_name], [email] for [ExpertCreate];
    [expert_id], [gross_amount], [net_amount] for [SaleCreate];
    [expert_id], [category], [description], [amount] for
    [OperationalCostCreate]. *)
Theorem required_fields_must_be_supplied :
  (forall (M : Model) now (data : gmap string value) n,
     n ∈ required M -> data !! n = None ->
     exists errs, validate M now data = inl errs /\ (n, missing) ∈ errs)
  /\ required UserCreate = ["email"; "password"; "name"]
  /\ required ExpertCreate = ["business_name"; "expert_name"; "email"]
  /\ required SaleCreate = ["expert_id"; "gross_amount"; "net_amount"]
  /\ required OperationalCostCreate = ["expert_id"; "category"; "description"; "amount"].
Proof.
  split; [| by repeat split].
  intros M now data n (f & Hf & <- & Hr)%required_elem Hn.
  apply (validate_inl now M data f missing Hf).
  unfold validate_field. rewrite Hn.
  apply (is_required_default now) in Hr. by rewrite Hr.
Qed.

(** X3 on a [SaleCreate] payload without [net_amount]. *)
Lemma required_fields_must_be_supplied_witness :
  exists errs,
    validate SaleCreate (Datetime 2024 1 1 0 0 0 0)
      (list_to_map [("expert_id", VInt 1); ("gross_amount", VDecimal (Dec 100000 (-2)))])
    = inl errs /\ ("net_amount", missing) ∈ errs.
Proof.
  apply required_fields_must_be_supplied.
  - apply (bool_decide_unpack _). vm_compute. exact I.
  - vm_compute. reflexivity.
Defined.

(** ** What a validation error reports *)

Lemma check_not_missing f v : check f v <> Some missing.
Proof.
  destruct v; simpl; try done.
  - unfold check_str.
    destruct (get_min_length f) as [a |]; [destruct (length s <? a)%nat |];
      simpl; try done;
      (destruct (get_max_length f) as [b |]; [destruct (b <? length s)%nat |]; done).
  - unfold check_decimal.
    destruct (extract_decimal_digits_info d true) as [nd ng],
             (extract_decimal_digits_info d false) as [dc dg].
    destruct (get_max_digits f) as [a |]; [destruct (_ && _) |]; simpl; try done;
      (destruct (get_decimal_places f) as [b |]; [| done];
       destruct (_ && _); [done |]; try done; by destruct (_ <? _)%nat).
Qed.

(** A field is reported [missing] only when the payload has no entry for
    it and it has no default; any other error is about the entry. *)
Lemma validate_field_inl now f data e :
  validate_field now f data = inl e ->
  (e = missing /\ data !! fname f = None /\ get_default now f = None) \/
  (e <> missing /\ is_Some (data !! fname f)).
Proof.
  unfold validate_field. destruct (data !! fname f) as [v |].
  - intros Hv. right. split; [| by eexists]. intros ->.
    unfold validate_value in Hv. destruct (coerce (ftype f) v) as [v' |]; [| done].
    destruct (check f v') eqn:Hc; [| done]. injection Hv as ->.
    by apply (check_not_missing f v').
  - destruct (get_default now f); [done |]. intros [= <-]. by left.
Qed.

(** X13.  A [ValidationError] is never empty and names declared fields
    only, each at most as often as declared and in declaration order.  It
    reports a field as [missing] exactly when the field is required and
    the payload has no entry for it; every other error it reports is
    about an entry the payload has. *)
Theorem ValidationError_reports_failing_fields (M : Model) (now : datetime)
    (data : gmap string value) (errs : ValidationError) :
  validate M now data = inl errs ->
  errs <> [] /\
  sublist (errs.*1) (field_names M) /\
  (forall n, (n, missing) ∈ errs <-> n ∈ required M /\ data !! n = None) /\
  (forall n e, (n, e) ∈ errs -> e <> missing -> is_Some (data !! n)).
Proof.
  intros [-> Hne]%validate_inl_fields. split; [done |]. split; [| split].
  - apply validate_fields_err_sublist.
  - intros n. split.
    + intros (f & Hf & <- & He)%validate_fields_err_inv.
      apply validate_field_inl in He as [(_ & Hd & Hdef) | [Hm _]]; [| done].
      split; [| done]. apply required_elem. exists f. split; [done |].
      split; [done |]. by apply (is_required_default now).
    + intros [(f & Hf & <- & Hr)%required_elem Hd].
      apply validate_fields_err; [done |]. unfold validate_field. rewrite Hd.
      apply (is_required_default now) in Hr. by rewrite Hr.
  - intros n e (f & Hf & <- & He)%validate_fields_err_inv Hm.
    by apply validate_field_inl in He as [(-> & _) | [_ Hs]].
Qed.

(** X13 on a [UserCreate] payload with a string that is no e-mail and
    without a name. *)
Lemma ValidationError_reports_failing_fields_witness :
  let data : gmap string value :=
    list_to_map [("email", VStr (py "ab.co")); ("password", VStr (py "s3cret-pass"))] in
  validate UserCreate (Datetime 2024 1 1 0 0 0 0) data = inl [("name", missing)] /\
  "name" ∈ required UserCreate /\ data !! "name" = None.
Proof.
  intros data.
  assert (He : validate UserCreate (Datetime 2024 1 1 0 0 0 0) data
               = inl [("name", missing)]) by (vm_compute; reflexivity).
  split; [exact He |].
  destruct (ValidationError_reports_failing_fields UserCreate (Datetime 2024 1 1 0 0 0 0)
              data [("name", missing)] He) as (_ & _ & Hiff & _).
  apply Hiff. left.
Defined.

Local Ltac lookup_concrete :=
  cbn [list_to_map foldr uncurry fst snd curry fname];
  repeat first [rewrite lookup_insert_eq | rewrite lookup_insert_ne by done];
  reflexivity.

(** ** The Update schemas *)

(** Every field of an Update schema is [Optional] with [default=None]. *)
Lemma update_schema_fields M now :
  M ∈ update_schemas ->
  Forall (fun f => (exists t, ftype f = TOptional t) /\
                   get_default now f = Some VNone) (fields M).
Proof.
  unfold update_schemas. intros HM.
  repeat (apply elem_of_cons in HM as [-> | HM]);
    [| | | by apply elem_of_nil in HM];
    simpl; repeat constructor; eauto.
Qed.

Lemma NoDup_update_schemas M : M ∈ update_schemas -> NoDup (field_names M).
Proof.
  unfold update_schemas. intros HM.
  repeat (apply elem_of_cons in HM as [-> | HM]);
    [| | | by apply elem_of_nil in HM];
    by apply (bool_decide_unpack _); vm_compute.
Qed.

(** X4.  Every field of [UserUpdate], [ExpertUpdate] and
    [OperationalCostUpdate] may be omitted: none is required, an error
    never concerns a field the payload did not supply, and the empty
    payload is accepted, with no field marked as set and every attribute
    [None]. *)
Theorem update_schemas_all_optional (M : Model) (now : datetime) :
  M ∈ update_schemas ->
  required M = [] /\
  (forall (data : gmap string value) errs n e,
     validate M now data = inl errs -> (n, e) ∈ errs -> is_Some (data !! n)) /\
  exists o, validate M now ∅ = inr o /\ fields_set o = [] /\
            forall n, n ∈ field_names M -> attrs o !! n = Some VNone.
Proof.
  intros HM. pose proof (update_schema_fields M now HM) as Hall.
  rewrite Forall_forall in Hall.
  assert (Hreq : required M = []).
  { unfold update_schemas in HM.
    repeat (apply elem_of_cons in HM as [-> | HM]); [done .. |].
    by apply elem_of_nil in HM. }
  split; [done |]. split.
  - intros data errs n e [-> _]%validate_inl_fields
      (f & Hf & <- & He)%validate_fields_err_inv.
    unfold validate_field in He. destruct (data !! fname f); [done |].
    destruct (Hall f Hf) as [_ Hd]. by rewrite Hd in He.
  - destruct (proj1 (validate_accepts now M ∅)) as [o Ho].
    { apply forallb_forall. intros f Hf%list_elem_of_In.
      unfold validate_field. rewrite lookup_empty.
      destruct (Hall f Hf) as [_ Hd]. by rewrite Hd. }
    exists o. split; [done |]. split.
    + rewrite (validate_fields_set now _ _ _ Ho). unfold supplied.
      induction (List.map fname (fields M)) as [|n l IH]; simpl; [done |].
      by rewrite lookup_empty.
    + intros n (f & -> & Hf)%list_elem_of_fmap.
      destruct (validate_inr now _ _ _ f Ho Hf) as (v & Hv & Ha).
      rewrite Ha by (by apply NoDup_update_schemas). f_equal.
      unfold validate_field in Hv. rewrite lookup_empty in Hv.
      destruct (Hall f Hf) as [_ Hd]. rewrite Hd in Hv. by injection Hv.
Qed.

(** X4 on [ExpertUpdate]. *)
Lemma update_schemas_all_optional_witness :
  exists o, validate ExpertUpdate (Datetime 2024 1 1 0 0 0 0) ∅ = inr o /\
            fields_set o = [] /\ attrs o !! "email" = Some VNone.
Proof.
  destruct (update_schemas_all_optional ExpertUpdate (Datetime 2024 1 1 0 0 0 0))
    as (_ & _ & o & Ho & Hs & Ha).
  - unfold update_schemas. right. left.
  - exists o. split; [exact Ho |]. split; [exact Hs |]. apply Ha.
    apply (bool_decide_unpack _). vm_compute. exact I.
Defined.

Lemma supplied_elem fs (data : gmap string value) n :
  n ∈ supplied fs data <-> n ∈ List.map fname fs /\ is_Some (data !! n).
Proof.
  unfold supplied. rewrite list_elem_of_In, filter_In, <- list_elem_of_In.
  by rewrite bool_decide_eq_true.
Qed.

(** X5.  In an Update schema, setting a field to [None] explicitly and
    leaving it out validate alike: the same errors, or the same
    attributes.  The two differ only in the set of supplied fields, which
    holds the field in the first case and not in the second. *)
Theorem update_explicit_None_vs_unset (M : Model) (now : datetime)
    (data : gmap string value) (n : string) :
  M ∈ update_schemas -> n ∈ field_names M -> data !! n = None ->
  match validate M now (<[n := VNone]> data), validate M now data with
  | inr o', inr o =>
      attrs o' = attrs o /\ n ∈ fields_set o' /\ n ∉ fields_set o
  | inl errs', inl errs => errs' = errs
  | _, _ => False
  end.
Proof.
  intros HM Hn Hd. pose proof (update_schema_fields M now HM) as Hall.
  rewrite Forall_forall in Hall.
  assert (Heq : validate_fields now (fields M) (<[n := VNone]> data)
                = validate_fields now (fields M) data).
  { apply validate_fields_ext. intros f Hf. unfold validate_field.
    destruct (decide (fname f = n)) as [<- | Hne].
    - rewrite lookup_insert_eq, Hd. destruct (Hall f Hf) as [[t Ht] Hdef].
      rewrite Hdef. unfold validate_value. rewrite Ht. done.
    - by rewrite lookup_insert_ne. }
  unfold validate. rewrite Heq.
  destruct (validate_fields now (fields M) data) as [[|e errs] a]; [| done].
  simpl. split; [done |]. split.
  - apply supplied_elem. split; [done |]. by rewrite lookup_insert_eq.
  - intros [_ [v Hv]]%supplied_elem. congruence.
Qed.

(** X5 on [OperationalCostUpdate] and its [notes]. *)
Lemma update_explicit_None_vs_unset_witness :
  let now := Datetime 2024 1 1 0 0 0 0 in
  let data : gmap string value := {["amount" := VDecimal (Dec 12050 (-2))]} in
  match validate OperationalCostUpdate now (<["notes" := VNone]> data),
        validate OperationalCostUpdate now data with
  | inr o', inr o =>
      attrs o' = attrs o /\ "notes" ∈ fields_set o' /\ "notes" ∉ fields_set o
  | inl errs', inl errs => errs' = errs
  | _, _ => False
  end.
Proof.
  intros now data. apply update_explicit_None_vs_unset.
  - unfold update_schemas. do 2 right. left.
  - apply (bool_decide_unpack _). vm_compute. exact I.
  - unfold data. by rewrite lookup_singleton_ne.
Defined.

(** ** The Summary schemas *)

Lemma summary_schema_fields M :
  M ∈ summary_schemas -> Forall (fun f => kwargs f = []) (fields M).
Proof.
  unfold summary_schemas. intros HM.
  repeat (apply elem_of_cons in HM as [-> | HM]);
    [| | by apply elem_of_nil in HM]; simpl; by repeat constructor.
Qed.

Lemma check_no_kwargs f v : kwargs f = [] -> check f v = None.
Proof.
  intros Hk. destruct v; simpl; try done.
  - unfold check_str, get_min_length, get_max_length. by rewrite Hk.
  - unfold check_decimal, get_max_digits, get_decimal_places. rewrite Hk.
    by destruct (extract_decimal_digits_info d true),
               (extract_decimal_digits_info d false).
Qed.

(** A value of the annotated type is kept by coercion. *)
Lemma coerce_typed t v : typed t v = true -> coerce t v = Some v.
Proof.
  revert v. induction t as [ | | | | | k | | t IH | t IH]; intros v H.
  - by destruct v.
  - by destruct v.
  - by destruct v.
  - by destruct v.
  - by destruct v.
  - destruct v; try done. simpl in *. apply bool_decide_eq_true in H.
    by destruct (decide (class_of m = k)).
  - done.
  - destruct v as [ | | | | | | | items]; try done. cbn [typed] in H. simpl.
    assert (Hitems : coerce_items (coerce t) items = Some items).
    { induction items as [|[k x] items IHl]; simpl in *; [done |].
      apply andb_true_iff in H as [Hx Hl]. by rewrite (IH _ Hx), (IHl Hl). }
    by rewrite Hitems.
  - destruct v; try done; exact (IH _ H).
Qed.

(** X14.  [FinancialSummary] and [ExpertFinancialSummary] ask for shape
    only: every field is required and none declares a constraint, so a
    payload that has, for every field, a value of the field's type is
    accepted whatever the values are, and the instance holds them as they
    were given. *)
Theorem summary_schemas_shape_only (M : Model) (now : datetime)
    (data : gmap string value) :
  M ∈ summary_schemas ->
  required M = field_names M /\
  (forall f, f ∈ fields M -> kwargs f = []) /\
  ((forall f, f ∈ fields M ->
      exists v, data !! fname f = Some v /\ typed (ftype f) v = true) ->
   exists o, validate M now data = inr o /\
             forall f, f ∈ fields M -> attrs o !! fname f = data !! fname f).
Proof.
  intros HM. pose proof (summary_schema_fields M HM) as Hall.
  rewrite Forall_forall in Hall.
  assert (Hm : required M = field_names M /\ NoDup (field_names M)).
  { unfold summary_schemas in HM.
    repeat (apply elem_of_cons in HM as [-> | HM];
            [split; [reflexivity | by apply (bool_decide_unpack _); vm_compute] |]).
    by apply elem_of_nil in HM. }
  destruct Hm as [Hreq Hnd]. split; [done |]. split; [done |]. intros H.
  assert (Hfield : forall f, f ∈ fields M ->
            exists v, data !! fname f = Some v /\ validate_field now f data = inr v).
  { intros f Hf. destruct (H f Hf) as (v & Hv & Ht). exists v. split; [done |].
    unfold validate_field, validate_value. rewrite Hv, (coerce_typed _ _ Ht).
    by rewrite check_no_kwargs by (by apply Hall). }
  destruct (proj1 (validate_accepts now M data)) as [o Ho].
  { apply forallb_forall. intros f Hf%list_elem_of_In.
    by destruct (Hfield f Hf) as (v & _ & ->). }
  exists o. split; [done |]. intros f Hf.
  destruct (Hfield f Hf) as (v & Hv & Hval).
  destruct (validate_inr now _ _ _ f Ho Hf) as (w & Hw & Ha).
  rewrite Ha by done. congruence.
Qed.

(** X14 on a [FinancialSummary] payload with amounts of any size. *)
Lemma summary_schemas_shape_only_witness :
  exists o,
    validate FinancialSummary (Datetime 2024 1 1 0 0 0 0)
      (list_to_map [("total_experts", VInt 3); ("active_experts", VInt (-2));
                    ("total_gross_revenue", VDecimal (Dec 12345678901234567890 (-5)));
                    ("total_og_share", VDecimal (Dec (-1) (-3)));
                    ("total_expert_share", VDecimal (Dec 0 0));
                    ("period_start", VDatetime (Datetime 2024 1 31 0 0 0 0));
                    ("period_end", VDatetime (Datetime 2024 1 1 0 0 0 0))]) = inr o.
Proof.
  destruct (summary_schemas_shape_only FinancialSummary (Datetime 2024 1 1 0 0 0 0)
    (list_to_map [("total_experts", VInt 3); ("active_experts", VInt (-2));
                  ("total_gross_revenue", VDecimal (Dec 12345678901234567890 (-5)));
                  ("total_og_share", VDecimal (Dec (-1) (-3)));
                  ("total_expert_share", VDecimal (Dec 0 0));
                  ("period_start", VDatetime (Datetime 2024 1 31 0 0 0 0));
                  ("period_end", VDatetime (Datetime 2024 1 1 0 0 0 0))]))
    as (_ & _ & H).
  - unfold summary_schemas. left.
  - destruct H as (o & Ho & _); [| by exists o].
    intros f Hf. simpl in Hf.
    repeat (apply elem_of_cons in Hf as [-> | Hf];
            [eexists; split; [lookup_concrete | reflexivity] |]).
    by apply elem_of_nil in Hf.
Defined.

(** ** What an accepted instance holds *)

Lemma NoDup_all_models M : M ∈ all_models -> NoDup (field_names M).
Proof.
  unfold all_models. intros HM.
  repeat (apply elem_of_cons in HM as [-> | HM];
          [by apply (bool_decide_unpack _); vm_compute |]).
  by apply elem_of_nil in HM.
Qed.

(** Each attribute of an accepted instance is the supplied value, coerced
    and within the constraints, or the default of a field left out. *)
Lemma accepted_attr M now data o f :
  validate M now data = inr o -> NoDup (field_names M) -> f ∈ fields M ->
  exists v, attrs o !! fname f = Some v /\
    ((exists x, data !! fname f = Some x /\ coerce (ftype f) x = Some v /\
                check f v = None)
     \/ (data !! fname f = None /\ get_default now f = Some v)).
Proof.
  intros Ho Hnd Hf. destruct (validate_inr now _ _ _ f Ho Hf) as (v & Hv & Ha).
  exists v. split; [by apply Ha |]. unfold validate_field in Hv.
  destruct (data !! fname f) as [x |].
  - left. exists x. split; [done |]. unfold validate_value in Hv.
    destruct (coerce (ftype f) x) as [v' |]; [| done].
    destruct (check f v') eqn:Hc; [done |]. by injection Hv as <-.
  - right. split; [done |]. destruct (get_default now f); [| done].
    by injection Hv as <-.
Qed.

Lemma or_else_None a b : or_else a b = None <-> a = None /\ b = None.
Proof. destruct a; simpl; split; try done; by intros []. Qed.

Lemma check_str_None f s :
  check_str f s = None <->
  (forall n, get_min_length f = Some n -> (n <= length s)%nat) /\
  (forall n, get_max_length f = Some n -> (length s <= n)%nat).
Proof.
  unfold check_str. rewrite or_else_None.
  assert (H1 : match get_min_length f with
               | Some n => if (length s <? n)%nat then Some (string_too_short n) else None
               | None => None
               end = None <->
               forall n, get_min_length f = Some n -> (n <= length s)%nat).
  { destruct (get_min_length f) as [a |]; [| by split].
    destruct (Nat.ltb_spec (length s) a); split; try done.
    - intros H0. specialize (H0 a eq_refl). lia.
    - intros _ n [= <-]. lia. }
  assert (H2 : match get_max_length f with
               | Some n => if (n <? length s)%nat then Some (string_too_long n) else None
               | None => None
               end = None <->
               forall n, get_max_length f = Some n -> (length s <= n)%nat).
  { destruct (get_max_length f) as [a |]; [| by split].
    destruct (Nat.ltb_spec a (length s)); split; try done.
    - intros H0. specialize (H0 a eq_refl). lia.
    - intros _ n [= <-]. lia. }
  by rewrite H1, H2.
Qed.

(** X6.  A string supplied for a [str] or [Optional[str]] field of an
    accepted payload is kept exactly as supplied (no trimming, no change
    of case), and is within the lengths the field declares: not shorter
    than [min_length], not longer than [max_length]. *)
Theorem accepted_strings_unchanged_and_bounded (M : Model) (now : datetime)
    (data : gmap string value) (o : obj) (f : FieldDecl) (s : str) :
  validate M now data = inr o -> NoDup (field_names M) -> f ∈ fields M ->
  ftype f = TStr \/ ftype f = TOptional TStr ->
  data !! fname f = Some (VStr s) ->
  attrs o !! fname f = Some (VStr s) /\
  (forall n, get_min_length f = Some n -> (n <= length s)%nat) /\
  (forall n, get_max_length f = Some n -> (length s <= n)%nat).
Proof.
  intros Ho Hnd Hf Ht Hs.
  destruct (accepted_attr M now data o f Ho Hnd Hf) as (v & Ha & [H | [H _]]);
    [| congruence].
  destruct H as (x & Hx & Hc & Hk). rewrite Hs in Hx. injection Hx as <-.
  assert (v = VStr s) as ->.
  { destruct Ht as [Ht | Ht]; rewrite Ht in Hc; simpl in Hc; congruence. }
  split; [done |]. by apply check_str_None.
Qed.

(** X6 on the [description] of an [OperationalCostCreate] payload. *)
Lemma accepted_strings_unchanged_and_bounded_witness :
  let now := Datetime 2024 1 1 0 0 0 0 in
  let data : gmap string value :=
    list_to_map [("expert_id", VInt 1); ("category", VStr (py "marketing"));
                 ("description", VStr (py "  Ads, March  "));
                 ("amount", VDecimal (Dec 12050 (-2)))] in
  exists o, validate OperationalCostCreate now data = inr o /\
            attrs o !! "description" = Some (VStr (py "  Ads, March  ")).
Proof.
  intros now data.
  destruct (proj1 (validate_accepts now OperationalCostCreate data)) as [o Ho];
    [vm_compute; reflexivity |].
  exists o. split; [exact Ho |].
  apply (accepted_strings_unchanged_and_bounded OperationalCostCreate now data o
           (Field "description" TStr [Kw.max_length 500])).
  - exact Ho.
  - apply (bool_decide_unpack _). vm_compute. exact I.
  - simpl. do 2 right. left.
  - by left.
  - unfold data. lookup_concrete.
Defined.

(** X7.  A value supplied for a [Decimal] or [Optional[Decimal]] field
    that declares [max_digits=n] and [decimal_places=p] comes out of an
    accepted payload as [None] (optional fields only) or as a [Decimal]
    that, when its coefficient is within the precision of the decimal
    context, is a fixed-point number: an integer below [10 ^ n] in
    magnitude counted in units of [10 ^ -p].  Trailing zeros beyond [p]
    places do not count: [900.500] is accepted for two places and kept as
    written.  For the amounts of [SaleCreate], [OperationalCostCreate]
    and [OperationalCostUpdate] the value is a whole number of cents
    below [10 ^ 12] in magnitude. *)
Theorem accepted_decimals_fixed_point (M : Model) (now : datetime)
    (data : gmap string value) (o : obj) (f : FieldDecl) (n p : nat) :
  validate M now data = inr o -> NoDup (field_names M) -> f ∈ fields M ->
  ftype f = TDecimal \/ ftype f = TOptional TDecimal ->
  get_max_digits f = Some n -> get_decimal_places f = Some p -> (p <= n)%nat ->
  is_Some (data !! fname f) ->
  (attrs o !! fname f = Some VNone /\ ftype f = TOptional TDecimal) \/
  exists d, attrs o !! fname f = Some (VDecimal d) /\
            ((ndigits (coef d) <= prec)%nat ->
             exists c, Z.abs c < 10 ^ Z.of_nat n /\
                       Decimal_eqb d (Dec c (- Z.of_nat p)) = true).
Proof.
  intros Ho Hnd Hf Ht Hn Hp Hpn [x Hx].
  destruct (accepted_attr M now data o f Ho Hnd Hf) as (v & Ha & [H | [H _]]);
    [| congruence].
  destruct H as (x' & Hx' & Hc & Hk). rewrite Hx in Hx'. injection Hx' as <-.
  assert (Hv : (v = VNone /\ ftype f = TOptional TDecimal) \/ exists d, v = VDecimal d).
  { destruct Ht as [Ht | Ht]; rewrite Ht in Hc.
    - right. by apply coerce_TDecimal in Hc.
    - destruct x as [ | s | z | b | d | t | m | items];
        [left; simpl in Hc; split; congruence | right ..].
      + exact (coerce_TDecimal (VStr s) v Hc).
      + exact (coerce_TDecimal (VInt z) v Hc).
      + exact (coerce_TDecimal (VBool b) v Hc).
      + exact (coerce_TDecimal (VDecimal d) v Hc).
      + exact (coerce_TDecimal (VDatetime t) v Hc).
      + exact (coerce_TDecimal (VEnum m) v Hc).
      + exact (coerce_TDecimal (VDict items) v Hc). }
  destruct Hv as [[-> Hopt] | [d ->]]; [by left | right].
  exists d. split; [done |]. intros Hprec.
  by apply (check_decimal_fixed_point f n p d).
Qed.

(** X7 on the [net_amount] of a [SaleCreate] payload. *)
Lemma accepted_decimals_fixed_point_witness :
  let now := Datetime 2024 1 1 0 0 0 0 in
  let data : gmap string value :=
    list_to_map [("expert_id", VInt 1); ("gross_amount", VStr (py "1000.00"));
                 ("net_amount", VStr (py "900.500"))] in
  exists o d, validate SaleCreate now data = inr o /\
    attrs o !! "net_amount" = Some (VDecimal d) /\
    ((ndigits (coef d) <= prec)%nat ->
     exists c, Z.abs c < 10 ^ 12 /\ Decimal_eqb d (Dec c (-2)) = true).
Proof.
  intros now data.
  destruct (proj1 (validate_accepts now SaleCreate data)) as [o Ho];
    [vm_compute; reflexivity |].
  destruct (accepted_decimals_fixed_point SaleCreate now data o
              (Field "net_amount" TDecimal [Kw.max_digits 12; Kw.decimal_places 2])
              12 2 Ho) as [[_ Hopt] | (d & Ha & Hd)].
  - apply (bool_decide_unpack _). vm_compute. exact I.
  - simpl. do 3 right. left.
  - by left.
  - reflexivity.
  - reflexivity.
  - lia.
  - exists (VStr (py "900.500")). unfold data. lookup_concrete.
  - discriminate Hopt.
  - by exists o, d.
Defined.

(** ** Fields are validated one by one *)

Lemma field_by_name M f g :
  NoDup (field_names M) -> f ∈ fields M -> g ∈ fields M -> fname g = fname f -> g = f.
Proof.
  unfold field_names. induction (fields M) as [|h l IH]; simpl; intros Hnd Hf Hg Hn.
  - by apply elem_of_nil in Hf.
  - apply NoDup_cons in Hnd as [Hh Hnd].
    apply elem_of_cons in Hf as [-> | Hf], Hg as [-> | Hg]; try done.
    + exfalso. apply Hh. rewrite <- Hn. apply list_elem_of_fmap. eauto.
    + exfalso. apply Hh. rewrite Hn. apply list_elem_of_fmap. eauto.
    + by apply IH.
Qed.

(** X8.  No schema relates one field to another: in an accepted payload,
    the value of a field can be replaced by any value that the field
    accepts on its own, and the payload stays accepted; only the attribute
    of that field changes.  In particular [SaleCreate] accepts a
    [net_amount] above the [gross_amount]. *)
Theorem no_cross_field_constraints (M : Model) (now : datetime)
    (data : gmap string value) (o : obj) (f : FieldDecl) (v v' : value) :
  validate M now data = inr o -> NoDup (field_names M) -> f ∈ fields M ->
  validate_value f v = inr v' ->
  exists o', validate M now (<[fname f := v]> data) = inr o' /\
             attrs o' = <[fname f := v']> (attrs o).
Proof.
  intros Ho Hnd Hf Hv.
  assert (Hfield : forall g, g ∈ fields M ->
            validate_field now g (<[fname f := v]> data) =
            if decide (fname g = fname f) then inr v' else validate_field now g data).
  { intros g Hg. unfold validate_field. destruct (decide (fname g = fname f)) as [Heq | Hne].
    - rewrite Heq, lookup_insert_eq. by rewrite (field_by_name M f g Hnd Hf Hg Heq).
    - by rewrite lookup_insert_ne. }
  destruct (proj1 (validate_accepts now M (<[fname f := v]> data))) as [o' Ho'].
  { apply forallb_forall. intros g Hg%list_elem_of_In. rewrite (Hfield g Hg).
    destruct (decide (fname g = fname f)); [done |].
    destruct (validate_inr now _ _ _ g Ho Hg) as (w & -> & _). done. }
  exists o'. split; [done |]. apply map_eq. intros n.
  destruct (decide (n ∈ field_names M)) as [(g & -> & Hg)%list_elem_of_fmap | Hout].
  - destruct (validate_inr now _ _ _ g Ho' Hg) as (w & Hw & Ha). rewrite Ha by done.
    rewrite (Hfield g Hg) in Hw. destruct (decide (fname g = fname f)) as [Heq | Hne].
    + rewrite Heq, lookup_insert_eq. congruence.
    + rewrite lookup_insert_ne by done.
      destruct (validate_inr now _ _ _ g Ho Hg) as (w' & Hw' & Ha').
      rewrite Ha' by done. congruence.
  - assert (n ≠ fname f) by (intros ->; apply Hout, list_elem_of_fmap; eauto).
    rewrite lookup_insert_ne by done.
    transitivity (@None value).
    + apply eq_None_not_Some. intros Hs. apply Hout.
      by apply (validate_attrs_declared now M _ o' n Ho').
    + symmetry. apply eq_None_not_Some. intros Hs. apply Hout.
      by apply (validate_attrs_declared now M data o n Ho).
Qed.

(** X8 on a [SaleCreate] payload whose net amount is raised above the
    gross amount. *)
Lemma no_cross_field_constraints_witness :
  let now := Datetime 2024 1 1 0 0 0 0 in
  let data : gmap string value :=
    list_to_map [("expert_id", VInt 1); ("gross_amount", VDecimal (Dec 100000 (-2)));
                 ("net_amount", VDecimal (Dec 90000 (-2)))] in
  exists o', validate SaleCreate now (<["net_amount" := VDecimal (Dec 500000 (-2))]> data)
             = inr o' /\
             attrs o' !! "net_amount" = Some (VDecimal (Dec 500000 (-2))).
Proof.
  intros now data.
  destruct (proj1 (validate_accepts now SaleCreate data)) as [o Ho];
    [vm_compute; reflexivity |].
  assert (Hnd : NoDup (field_names SaleCreate))
    by (apply (bool_decide_unpack _); vm_compute; exact I).
  destruct (no_cross_field_constraints SaleCreate now data o
              (Field "net_amount" TDecimal [Kw.max_digits 12; Kw.decimal_places 2])
              (VDecimal (Dec 500000 (-2))) (VDecimal (Dec 500000 (-2))) Ho Hnd)
    as (o' & Ho' & Ha).
  - simpl. do 3 right. left.
  - vm_compute. reflexivity.
  - exists o'. split; [exact Ho' |]. rewrite Ha. by rewrite lookup_insert_eq.
Defined.

(** ** Defaults, and validating twice *)

Lemma enum_of_value_class k s m : enum_of_value k s = Some m -> class_of m = k.
Proof. unfold enum_of_value. intros [Hin _]%find_some. by apply members_class. Qed.

(** Coercion gives a value that coercion keeps. *)
Lemma coerce_idem t x v : coerce t x = Some v -> coerce t v = Some v.
Proof.
  revert x v. induction t as [ | | | | | k | | t IH | t IH]; intros x v.
  - destruct x; simpl; try done; by intros [= <-].
  - destruct x; simpl; try done; by intros [= <-].
  - destruct x; simpl; try done; by intros [= <-].
  - intros (d & ->)%coerce_TDecimal. done.
  - destruct x; simpl; try done.
    + destruct (fromisoformat s); simpl; [| done]. by intros [= <-].
    + by intros [= <-].
  - destruct x; simpl; try done.
    + destruct (enum_of_value k s) as [m |] eqn:E; simpl; [| done].
      intros [= <-]. simpl. apply enum_of_value_class in E.
      by destruct (decide (class_of m = k)).
    + destruct (decide (class_of m = k)); [| done]. intros [= <-]. simpl.
      by destruct (decide (class_of m = k)).
  - done.
  - destruct x as [ | | | | | | | items]; simpl; try done.
    destruct (coerce_items (coerce t) items) as [items' |] eqn:E; simpl; [| done].
    intros [= <-]. simpl.
    assert (Hi : coerce_items (coerce t) items' = Some items').
    { revert items' E. induction items as [|[k x] items IHl]; simpl; intros items'.
      - by intros [= <-].
      - destruct (coerce t x) as [y |] eqn:Hx; [| done].
        destruct (coerce_items (coerce t) items) as [r |]; [| done].
        intros [= <-]. simpl. by rewrite (IH _ _ Hx), (IHl r eq_refl). }
    by rewrite Hi.
  - destruct x; simpl; try (by intros [= <-]); intros H; pose proof (IH _ _ H) as H';
      destruct v; simpl; done.
Qed.

(** Every default declared in the file is a value its own field accepts. *)
Lemma defaults_valid M now f d :
  M ∈ all_models -> f ∈ fields M -> get_default now f = Some d ->
  validate_value f d = inr d.
Proof.
  unfold all_models. intros HM Hf Hd.
  repeat (apply elem_of_cons in HM as [-> | HM];
    [simpl in Hf;
     repeat (apply elem_of_cons in Hf as [-> | Hf];
             [first [discriminate Hd | injection Hd as <-; vm_compute; reflexivity] |]);
     by apply elem_of_nil in Hf |]).
  by apply elem_of_nil in HM.
Qed.

(** The attributes of an accepted instance are values their fields
    accept, and keep. *)
Lemma accepted_attr_valid M now data o f :
  M ∈ all_models -> validate M now data = inr o -> f ∈ fields M ->
  exists v, attrs o !! fname f = Some v /\ validate_value f v = inr v.
Proof.
  intros HM Ho Hf.
  destruct (accepted_attr M now data o f Ho (NoDup_all_models M HM) Hf)
    as (v & Ha & [(x & Hx & Hc & Hk) | [Hx Hd]]); exists v; (split; [done |]).
  - unfold validate_value. by rewrite (coerce_idem _ _ _ Hc), Hk.
  - by apply (defaults_valid M now).
Qed.

Lemma None_defaults_optional M now f :
  M ∈ all_models -> f ∈ fields M -> get_default now f = Some VNone ->
  exists t, ftype f = TOptional t.
Proof.
  unfold all_models. intros HM Hf Hd.
  repeat (apply elem_of_cons in HM as [-> | HM];
    [simpl in Hf;
     repeat (apply elem_of_cons in Hf as [-> | Hf];
             [first [discriminate Hd | by eexists] |]);
     by apply elem_of_nil in Hf |]).
  by apply elem_of_nil in HM.
Qed.

(** X11.  Every default declared in the file satisfies the type and the
    constraints of its own field (pydantic does not check defaults): the
    default of [revenue_split_percentage], [Decimal("50.0")], is within 5
    digits and 2 decimal places, that of [average_sale_value] within 12
    and 2, and each [None] default belongs to an [Optional] field. *)
Theorem declared_defaults_are_valid (M : Model) (now : datetime)
    (f : FieldDecl) (d : value) :
  M ∈ all_models -> f ∈ fields M -> get_default now f = Some d ->
  validate_value f d = inr d /\
  (d = VNone -> exists t, ftype f = TOptional t).
Proof.
  intros HM Hf Hd. split; [by apply (defaults_valid M now) |].
  intros ->. by apply (None_defaults_optional M now).
Qed.

(** X11 on the default of [FinancialReport.average_sale_value]. *)
Lemma declared_defaults_are_valid_witness :
  validate_value
    (Field "average_sale_value" TDecimal
       [Kw.default (VDecimal (Dec 0 (-2))); Kw.max_digits 12; Kw.decimal_places 2])
    (VDecimal (Dec 0 (-2))) = inr (VDecimal (Dec 0 (-2))).
Proof.
  apply (declared_defaults_are_valid FinancialReport (Datetime 2024 1 1 0 0 0 0)).
  - unfold all_models. do 4 right. left.
  - simpl. do 11 right. left.
  - reflexivity.
Defined.

(** X9.  Validation is idempotent on every model of the file: the
    attributes of an accepted instance, validated again against the same
    model, are accepted and come out unchanged. *)
Theorem validate_idempotent (M : Model) (now : datetime)
    (data : gmap string value) (o : obj) :
  M ∈ all_models -> validate M now data = inr o ->
  exists o', validate M now (attrs o) = inr o' /\ attrs o' = attrs o.
Proof.
  intros HM Ho. pose proof (NoDup_all_models M HM) as Hnd.
  assert (Hfield : forall f, f ∈ fields M ->
            exists v, attrs o !! fname f = Some v /\
                      validate_field now f (attrs o) = inr v).
  { intros f Hf. destruct (accepted_attr_valid M now data o f HM Ho Hf) as (v & Ha & Hv).
    exists v. split; [done |]. unfold validate_field. by rewrite Ha. }
  destruct (proj1 (validate_accepts now M (attrs o))) as [o' Ho'].
  { apply forallb_forall. intros f Hf%list_elem_of_In.
    destruct (Hfield f Hf) as (v & _ & ->). done. }
  exists o'. split; [done |]. apply map_eq. intros n.
  destruct (decide (n ∈ field_names M)) as [(f & -> & Hf)%list_elem_of_fmap | Hout].
  - destruct (Hfield f Hf) as (v & Ha & Hv).
    destruct (validate_inr now _ _ _ f Ho' Hf) as (w & Hw & Ha').
    rewrite Ha' by done. congruence.
  - transitivity (@None value).
    + apply eq_None_not_Some. intros Hs. apply Hout.
      by apply (validate_attrs_declared now M _ o' n Ho').
    + symmetry. apply eq_None_not_Some. intros Hs. apply Hout.
      by apply (validate_attrs_declared now M data o n Ho).
Qed.

(** X9 on an [ExpertCreate] payload given as JSON text values. *)
Lemma validate_idempotent_witness :
  let now := Datetime 2024 1 1 0 0 0 0 in
  let data : gmap string value :=
    list_to_map [("business_name", VStr (py "OG Digital"));
                 ("expert_name", VStr (py "Ana"));
                 ("email", VStr (py "ana@og.digital"));
                 ("revenue_split_percentage", VStr (py "62.50"))] in
  exists o o', validate ExpertCreate now data = inr o /\
               validate ExpertCreate now (attrs o) = inr o' /\
               attrs o' = attrs o.
Proof.
  intros now data.
  destruct (proj1 (validate_accepts now ExpertCreate data)) as [o Ho];
    [vm_compute; reflexivity |].
  destruct (validate_idempotent ExpertCreate now data o) as (o' & Ho' & Ha).
  - unfold all_models. do 7 right. left.
  - exact Ho.
  - by exists o, o'.
Defined.

(** ** Table models cannot be instantiated *)

Lemma tables_table M : M ∈ tables -> table M = true.
Proof.
  change tables with [User; Expert; Sale; OperationalCost; FinancialReport].
  intros HM. repeat (apply elem_of_cons in HM as [-> | HM]; [reflexivity |]).
  by apply elem_of_nil in HM.
Qed.

(** X10.  No table model of the file can be instantiated.  The mappers of
    all five tables are configured together when one of them is first
    used, and the configuration fails on [User.expert_business], the one
    relationship that goes between two tables linked by more than one
    foreign key without naming the one it uses: the constructor and
    [model_validate] of every table model raise
    [AmbiguousForeignKeysError], whatever they are given.  Every other
    relationship of the file determines its join through exactly one
    foreign key.  The schemas ([table=False]) have no mapper: their
    constructor validates. *)
Theorem table_models_cannot_be_instantiated (now : datetime) :
  (forall M (data : gmap string value), M ∈ tables ->
     init M now data = inl (AmbiguousForeignKeysError "User.expert_business") /\
     model_validate M now data = inl (AmbiguousForeignKeysError "User.expert_business"))
  /\ (forall A rs r, (A, rs) ∈ registry -> r ∈ rs ->
        qualified A (rname r) <> "User.expert_business" ->
        exists B c, find_class registry (target r) = Some B /\
                    join_condition A B r = inr c)
  /\ (forall M (data : gmap string value) o, table M = false ->
        init M now data = inr o <-> validate M now data = inr o).
Proof.
  split; [| split].
  - intros M data HM%tables_table. by apply init_table.
  - intros A rs r HA Hr Hne. unfold registry in HA.
    repeat (apply elem_of_cons in HA as [[= -> ->] | HA];
      [repeat (apply elem_of_cons in Hr as [-> | Hr];
               [first [by exfalso; apply Hne
                      | eexists _, _; split; vm_compute; reflexivity] |]);
       by apply elem_of_nil in Hr |]).
    by apply elem_of_nil in HA.
  - intros M data o Ht. unfold init. rewrite Ht.
    destruct (validate M now data); split; congruence.
Qed.

(** X10 on a [Sale] built from keyword arguments. *)
Lemma table_models_cannot_be_instantiated_witness :
  init Sale (Datetime 2024 1 1 0 0 0 0)
    (list_to_map [("expert_id", VInt 1); ("gross_amount", VDecimal (Dec 100000 (-2)));
                  ("net_amount", VDecimal (Dec 90000 (-2)))])
  = inl (AmbiguousForeignKeysError "User.expert_business").
Proof.
  apply (table_models_cannot_be_instantiated (Datetime 2024 1 1 0 0 0 0)).
  change tables with [User; Expert; Sale; OperationalCost; FinancialReport].
  do 2 right. left.
Defined.

(** ** What a Create schema accepts fits the table it feeds *)

Lemma check_decimal_no_stricter f' f d :
  (get_max_digits f' = None /\ get_decimal_places f' = None) \/
  (get_max_digits f' = get_max_digits f /\
   get_decimal_places f' = get_decimal_places f) ->
  check_decimal f d = None -> check_decimal f' d = None.
Proof.
  unfold check_decimal. intros [[-> ->] | [-> ->]]; [| done].
  by destruct (extract_decimal_digits_info d true),
             (extract_decimal_digits_info d false).
Qed.

Lemma no_stricter_valid f' f v :
  no_stricter f' f -> validate_value f v = inr v -> validate_value f' v = inr v.
Proof.
  intros (Ht & Hmin & Hmax & Hre & Hdec). unfold validate_value. rewrite Ht.
  destruct (coerce (ftype f) v) as [v' |]; [| done].
  destruct (check f v') eqn:Hc; [done |]. intros [= ->].
  assert (Hc' : check f' v = None); [| by rewrite Hc'].
  destruct v; simpl in *; try done.
  - apply check_str_None in Hc as (H1 & H2). apply check_str_None.
    split.
    + destruct Hmin as [-> | ->]; [done | exact H1].
    + destruct Hmax as [-> | ->]; [done | exact H2].
  - by apply (check_decimal_no_stricter f' f).
Qed.

Local Ltac no_stricter_field :=
  right; eexists; split;
  [vm_compute; reflexivity
  | split; [reflexivity |];
    split; [first [left; reflexivity | right; reflexivity] |];
    split; [first [left; reflexivity | right; reflexivity] |];
    split; [first [left; reflexivity | right; reflexivity] |];
    first [left; split; reflexivity | right; split; reflexivity]].

Lemma creates_fields M M' excl :
  (M, M', excl) ∈ creates ->
  M ∈ all_models /\
  Forall (fun f => fname f ∈ excl \/
                   exists f', counterpart M' (fname f) = Some f' /\ no_stricter f' f)
         (fields M).
Proof.
  unfold creates. intros H.
  repeat (apply elem_of_cons in H as [[= -> -> ->] | H];
    [split; [unfold all_models; by repeat constructor |];
     simpl; repeat (apply Forall_cons; split;
                    [first [no_stricter_field | left; by repeat constructor] |]);
     by apply Forall_nil |]).
  by apply elem_of_nil in H.
Qed.

(** X12.  What a Create schema accepts fits the table it feeds: every
    attribute of an accepted [UserCreate], [ExpertCreate], [SaleCreate] or
    [OperationalCostCreate] instance is a valid value of the column of the
    same name in [User], [Expert], [Sale] or [OperationalCost].  The
    exceptions are [password], for which [User] has no column, and
    [sale_date] and [cost_date], which the schemas allow to be [None]
    while the columns are not [Optional]. *)
Theorem create_schemas_fit_their_tables (M M' : Model) (excl : list string)
    (now : datetime) (data : gmap string value) (o : obj) (n : string) (v : value) :
  (M, M', excl) ∈ creates ->
  validate M now data = inr o -> attrs o !! n = Some v -> n ∉ excl ->
  exists f', counterpart M' n = Some f' /\ validate_value f' v = inr v.
Proof.
  intros [HM Hall]%creates_fields Ho Ha Hn. rewrite Forall_forall in Hall.
  assert (Hin : n ∈ field_names M)
    by (by apply (validate_attrs_declared now M data o)).
  apply list_elem_of_fmap in Hin as (f & -> & Hf).
  destruct (Hall f Hf) as [? | (f' & Hc & Hs)]; [done |].
  exists f'. split; [done |]. apply (no_stricter_valid f' f); [done |].
  destruct (accepted_attr_valid M now data o f HM Ho Hf) as (w & Hw & Hv).
  congruence.
Qed.

(** X12 on the e-mail of an accepted [ExpertCreate] payload. *)
Lemma create_schemas_fit_their_tables_witness :
  let now := Datetime 2024 1 1 0 0 0 0 in
  let data : gmap string value :=
    list_to_map [("business_name", VStr (py "OG Digital"));
                 ("expert_name", VStr (py "Ana"));
                 ("email", VStr (py "ana@og.digital"))] in
  exists o f', validate ExpertCreate now data = inr o /\
               counterpart Expert "email" = Some f' /\
               validate_value f' (VStr (py "ana@og.digital")) = inr (VStr (py "ana@og.digital")).
Proof.
  intros now data.
  destruct (proj1 (validate_accepts now ExpertCreate data)) as [o Ho];
    [vm_compute; reflexivity |].
  destruct (create_schemas_fit_their_tables ExpertCreate Expert [] now data o
              "email" (VStr (py "ana@og.digital"))) as (f' & Hc & Hv).
  - unfold creates. right. left.
  - exact Ho.
  - destruct (validate_inr now _ _ _
                (Field "email" TStr [Kw.max_length 255; Kw.regex EMAIL_REGEX]) Ho)
      as (w & Hw & Ha); [simpl; do 2 right; left |].
    specialize (Ha NoDup_ExpertCreate). cbn [fname] in Ha. rewrite Ha.
    vm_compute in Hw. injection Hw as <-. reflexivity.
  - apply not_elem_of_nil.
  - by exists o, f'.
Defined.

(** ** Dates left to the server *)

(** X15.  [SaleCreate.sale_date] and [OperationalCostCreate.cost_date]
    may be left out, and are then [None] in the accepted instance.  The
    columns [Sale.sale_date] and [OperationalCost.cost_date] they go to
    are declared differently: a [datetime] that is not [Optional], with
    the current time as its default, for which [None] is not a valid
    value. *)
Theorem omitted_dates_are_None (now : datetime) :
  forall C T n,
    (C, T, n) ∈ [(SaleCreate, Sale, "sale_date");
                 (OperationalCostCreate, OperationalCost, "cost_date")] ->
    (forall (data : gmap string value) o,
       validate C now data = inr o -> data !! n = None ->
       attrs o !! n = Some VNone) /\
    (exists f', counterpart T n = Some f' /\
                ftype f' = TDatetime /\
                get_default now f' = Some (VDatetime now) /\
                validate_value f' VNone = inl (type_error TDatetime)).
Proof.
  intros C T n H.
  assert (Hcases : (C = SaleCreate /\ T = Sale /\ n = "sale_date") \/
                   (C = OperationalCostCreate /\ T = OperationalCost /\ n = "cost_date")).
  { apply elem_of_cons in H as [[= -> -> ->] | H]; [by left |].
    apply elem_of_cons in H as [[= -> -> ->] | H]; [by right |].
    by apply elem_of_nil in H. }
  set (c := Field n (Optional TDatetime) [None_]).
  set (t := Field n TDatetime [Kw.default_factory_utcnow]).
  assert (Hc : c ∈ fields C /\ NoDup (field_names C)).
  { unfold c. destruct Hcases as [(-> & -> & ->) | (-> & -> & ->)];
      (split; [simpl; by repeat constructor
              | by apply (bool_decide_unpack _); vm_compute]). }
  assert (Hcp : counterpart T n = Some t).
  { unfold t. destruct Hcases as [(-> & -> & ->) | (-> & -> & ->)];
      vm_compute; reflexivity. }
  destruct Hc as [Hc Hnd].
  split.
  - intros data o Ho Hd.
    destruct (validate_inr now _ _ _ c Ho Hc) as (v & Hv & Ha).
    specialize (Ha Hnd). cbn [fname c] in Ha. rewrite Ha. f_equal.
    unfold validate_field in Hv. cbn [fname c] in Hv. rewrite Hd in Hv.
    simpl in Hv. by injection Hv.
  - exists t. by repeat split.
Qed.

(** X15 on a [SaleCreate] payload without [sale_date]. *)
Lemma omitted_dates_are_None_witness :
  let now := Datetime 2024 1 1 0 0 0 0 in
  let data : gmap string value :=
    list_to_map [("expert_id", VInt 1); ("gross_amount", VDecimal (Dec 100000 (-2)));
                 ("net_amount", VDecimal (Dec 90000 (-2)))] in
  exists o, validate SaleCreate now data = inr o /\
            attrs o !! "sale_date" = Some VNone.
Proof.
  intros now data.
  destruct (proj1 (validate_accepts now SaleCreate data)) as [o Ho];
    [vm_compute; reflexivity |].
  exists o. split; [exact Ho |].
  destruct (omitted_dates_are_None now SaleCreate Sale "sale_date") as (H & _).
  - left.
  - apply (H data o Ho). vm_compute. reflexivity.
Defined.

(** ** Keys of the tables *)

(** X16.  The keys of the five tables are consistent: each table has the
    single primary key [id]; every foreign key declared in the file names
    the primary key of a table of the file ([users.id] or [experts.id]);
    and the only columns declared unique are [User.email] and
    [Expert.subdomain]. *)
Theorem table_keys_consistent :
  List.map table_name tables
    = ["users"; "experts"; "sales"; "operational_costs"; "financial_reports"]
  /\ (forall T, T ∈ tables -> primary_keys T = ["id"])
  /\ (forall M f tgt, M ∈ all_models -> f ∈ fields M ->
        get_foreign_key f = Some tgt ->
        table M = true /\
        exists T, T ∈ tables /\
                  tgt = String.append (table_name T) (String.append "." "id"))
  /\ (forall M, M ∈ all_models ->
        unique_columns M =
        if String.eqb (cls M) "User" then ["email"]
        else if String.eqb (cls M) "Expert" then ["subdomain"]
        else []).
Proof.
  split; [reflexivity |]. split; [| split].
  - intros T HT. change tables with [User; Expert; Sale; OperationalCost; FinancialReport] in HT.
    repeat (apply elem_of_cons in HT as [-> | HT]; [reflexivity |]).
    by apply elem_of_nil in HT.
  - intros M f tgt HM Hf Hk. unfold all_models in HM.
    change tables with [User; Expert; Sale; OperationalCost; FinancialReport].
    repeat (apply elem_of_cons in HM as [-> | HM];
      [simpl in Hf;
       repeat (apply elem_of_cons in Hf as [-> | Hf];
               [first [discriminate Hk
                      | injection Hk as <-; split; [reflexivity |];
                        first [exists User; split; [by repeat constructor | reflexivity]
                              | exists Expert; split; [by repeat constructor | reflexivity]]] |]);
       by apply elem_of_nil in Hf |]).
    by apply elem_of_nil in HM.
  - intros M HM. unfold all_models in HM.
    repeat (apply elem_of_cons in HM as [-> | HM]; [reflexivity |]).
    by apply elem_of_nil in HM.
Qed.

(** X16 on [Expert.owner_id]. *)
Lemma table_keys_consistent_witness :
  exists T, T ∈ tables /\
            "users.id" = String.append (table_name T) (String.append "." "id").
Proof.
  destruct table_keys_consistent as (_ & _ & Hfk & _).
  destruct (Hfk Expert (Field "owner_id" (Optional TInt) [None_; Kw.foreign_key "users.id"])
              "users.id") as (_ & T & HT & Heq).
  - unfold all_models. right. left.
  - simpl. do 13 right. left.
  - reflexivity.
  - by exists T.
Defined.

(** ** Schemas survive serialization *)


